(** * osgeo_manager: source abstraction, schema comparison, portal backup

    A shallow embedding of [osgeo_manager/mixins.py] and
    [osgeo_manager/base_manager.py].  Pure helpers are Rocq functions;
    code that talks to the OGR driver, the file system, the catalog or
    the logger is written in a state-and-exception monad over a [World]
    that records what those collaborators hold and answer. *)

From Stdlib Require Import String Ascii List Bool Arith ZArith Lia Permutation.
Import ListNotations.
Local Open Scope string_scope.
Local Open Scope list_scope.

Set Implicit Arguments.

(* ================================================================== *)
(** ** Python strings *)

Module PyStr.

(** [c.lower()] on an ASCII character: only [A]..[Z] move. *)
Definition lower_ascii (c : ascii) : ascii :=
  let n := nat_of_ascii c in
  if ((65 <=? n)%nat && (n <=? 90)%nat)%bool then ascii_of_nat (n + 32) else c.

(** [s.lower()] on a string of ASCII characters, and on any byte
    string of Python 2.  On text with other cased letters Python 3
    lowers these as well, which this does not: what is stated of the
    lower-casing is stated for ASCII strings, see [isascii]. *)
Fixpoint lower (s : string) : string :=
  match s with
  | EmptyString => EmptyString
  | String c r => String (lower_ascii c) (lower r)
  end.

(** [s.isascii()] *)
Definition isascii (s : string) : bool :=
  forallb (fun c => (nat_of_ascii c <? 128)%nat) (list_ascii_of_string s).

(** [s.endswith(suffix)] *)
Definition endswith (s suffix : string) : bool :=
  let n := String.length s in
  let k := String.length suffix in
  ((k <=? n)%nat && String.eqb (substring (n - k) k s) suffix)%bool.

(** [s.split(sep)] for a one-character separator: the pieces between
    separators, never an empty list. *)
Fixpoint split (sep : ascii) (s : string) : list string :=
  match s with
  | EmptyString => [EmptyString]
  | String c r =>
      if Ascii.eqb c sep then EmptyString :: split sep r
      else match split sep r with
           | [] => [String c EmptyString]
           | p :: ps => String c p :: ps
           end
  end.

(** [l.pop()] read as the value it returns, on a list of strings. *)
Definition pop (l : list string) : string := List.last l EmptyString.

(** [str(x)] of a value that may be [None]. *)
Definition str_opt (o : option string) : string :=
  match o with Some s => s | None => "None" end.

(** Truth value of a string: empty is false. *)
Definition truthy (s : string) : bool :=
  match s with EmptyString => false | _ => true end.

Definition digit (n : nat) : ascii := ascii_of_nat (48 + n mod 10).

(** [%02d]-style field of [strftime]. *)
Definition two_digits (n : nat) : string :=
  String (digit (n / 10)) (String (digit n) EmptyString).

(** [%Y] of [strftime]. *)
Definition four_digits (n : nat) : string :=
  String (digit (n / 1000)) (String (digit (n / 100))
    (String (digit (n / 10)) (String (digit n) EmptyString))).

End PyStr.

(* ================================================================== *)
(** ** Schemas and [compare_schema]  (mixins.py, lines 52-71) *)

(** One entry of [get_full_schema()]: [(name, type, width)]. *)
Definition field : Type := string * string * Z.

Definition field_name (f : field) : string := fst (fst f).

(** Tuple [==]. *)
Definition field_eqb (f g : field) : bool :=
  match f, g with
  | (n1, t1, w1), (n2, t2, w2) =>
      String.eqb n1 n2 && String.eqb t1 t2 && Z.eqb w1 w2
  end.

(** List [==]. *)
Fixpoint schema_eqb (s1 s2 : list field) : bool :=
  match s1, s2 with
  | [], [] => true
  | f :: r1, g :: r2 => field_eqb f g && schema_eqb r1 r2
  | _, _ => false
  end.

(** [f in schema] *)
Definition field_in (f : field) (schema : list field) : bool :=
  existsb (field_eqb f) schema.

(** [list.sort(key=lambda field: field[0])].  Python's sort is stable,
    and a stable sort has one possible result, computed here by
    insertion: going right to left, an element is put before the first
    element whose key is not smaller. *)
Fixpoint insert_by_name (f : field) (l : list field) : list field :=
  match l with
  | [] => [f]
  | g :: r =>
      if String.leb (field_name f) (field_name g) then f :: g :: r
      else g :: insert_by_name f r
  end.

Fixpoint sort_by_name (l : list field) : list field :=
  match l with
  | [] => []
  | f :: r => insert_by_name f (sort_by_name r)
  end.

(** [[(field[0].lower(), field[1], field[2]) for field in schema]] *)
Definition lower_names (schema : list field) : list field :=
  map (fun f : field =>
         match f with (n, t, w) => (PyStr.lower n, t, w) end) schema.

(** The dict returned by [compare_schema]. *)
Record SchemaDiffReport : Type := mkReport {
  compatible : bool;
  deleted_fields : list field;
  new_fields : list field
}.

(** [compare_schema(layer1, layer2, ignore_case)], on the two lists
    that [layerN.get_full_schema()] returns. *)
Definition compare_schema (full1 full2 : list field) (ignore_case : bool)
  : SchemaDiffReport :=
  let schema1 := if ignore_case then lower_names full1 else full1 in
  let schema2 := if ignore_case then lower_names full2 else full2 in
  let schema1 := sort_by_name schema1 in
  let schema2 := sort_by_name schema2 in
  let new := filter (fun f => negb (field_in f schema2)) schema1 in
  let deleted := filter (fun f => negb (field_in f schema1)) schema2 in
  let deleted := sort_by_name deleted in
  let new := sort_by_name new in
  {| compatible := schema_eqb schema1 schema2;
     deleted_fields := deleted;
     new_fields := new |}.

(* ================================================================== *)
(** ** Exceptions and the world outside the program *)

(** The exceptions that can travel through this code.  The first seven
    derive from Python's [Exception]; [KeyboardInterrupt] and
    [SystemExit] derive from [BaseException] only. *)
Inductive exn : Type :=
| Exception (msg : string)
| AssertionError
| AttributeError (msg : string)
| TypeError (msg : string)
| RuntimeError (msg : string)
| SourceException (msg : string)
| OSGEOLayerException (msg : string)
| KeyboardInterrupt
| SystemExit.

(** [isinstance(e, Exception)], what [except Exception] tests. *)
Definition isinstance_Exception (e : exn) : bool :=
  match e with
  | KeyboardInterrupt | SystemExit => false
  | _ => true
  end.

Inductive outcome (A : Type) : Type :=
| Ret (a : A)
| Raise (e : exn).
Arguments Ret {A} a.
Arguments Raise {A} e.

(** A native OGR layer: its name, its full schema and its rows. *)
Record OgrLayer : Type := mkLayer {
  GetName : string;
  lyr_schema : list field;
  lyr_rows : list (list string)
}.

(** What [ogr.Open] hands out: a numbered reference to the store at a
    location, with the [update_enabled] flag it was opened with. *)
Record Handle : Type := mkHandle {
  h_id : nat;
  h_loc : string;
  h_update : Z
}.

(** A style as the catalog keeps it. *)
Record Style : Type := mkStyle {
  style_name : string;
  sld_url : string
}.

(** One [geonode.layers.models.Layer] row, with what [backup_portal]
    reads of it: [alternate], the first attribute whose type contains
    [gml] (absent when [.first()] is [None]) and [default_style]. *)
Record CatalogLayer : Type := mkCatalogLayer {
  alternate : string;
  gml_attribute : option string;
  default_style : option Style
}.

(** [ogc_server_settings.datastore_db]; [None] is a missing key. *)
Record DbSettings : Type := mkDb {
  db_NAME : option string;
  db_USER : option string;
  db_PASSWORD : option string;
  db_HOST : option string;
  db_PORT : option string
}.

(** [time.localtime()] *)
Record struct_time : Type := mkTime {
  tm_year : nat; tm_mon : nat; tm_mday : nat;
  tm_hour : nat; tm_min : nat; tm_sec : nat
}.

(** Calls into collaborators that may raise for reasons of their own. *)
Inductive Op : Type :=
| Op_get_new_dir
| Op_Layer_objects_all
| Op_CreateDataSource (path : string)
| Op_CopyLayer (name : string)
| Op_create_table (path : string)
| Op_add_style (layer_name : string).

(** What was done with the driver, in order.  [EvRelease h] is the
    generator of [open_source] clearing its variable [source]
    (mixins.py, line 28): the generator gives up the one reference it
    holds, and the handle stays with whoever was given it. *)
Inductive Event : Type :=
| EvOpen (h : Handle)
| EvFlushCache (h : Handle)
| EvRelease (h : Handle)
| EvCreateDataSource (path : string)
| EvCopyLayer (dest : string) (name : string).

Record World : Type := mkWorld {
  (** every location [ogr.Open] can reach, with the layers stored there
      in native order: databases by connection string, files by path *)
  stores : list (string * list OgrLayer);
  (** [ogr.UseExceptions()] is in force *)
  use_exceptions : bool;
  (** directories on disk, each with whether it is writable *)
  dirs : list (string * bool);
  (** the name [get_new_dir] picks next *)
  fresh_name : string;
  clock : struct_time;
  datastore_db : DbSettings;
  (** [Layer.objects.all()] *)
  catalog : list CatalogLayer;
  (** [get_sld_body(url)] *)
  sld_body : string -> outcome string;
  (** the collaborator's failure, if any, at each call *)
  fault : Op -> option exn;
  next_handle : nat;
  trace : list Event;
  (** what [logger.error] received *)
  log : list exn
}.

Definition set_stores (s : list (string * list OgrLayer)) (w : World) : World :=
  mkWorld s (use_exceptions w) (dirs w) (fresh_name w) (clock w)
          (datastore_db w) (catalog w) (sld_body w) (fault w)
          (next_handle w) (trace w) (log w).

Definition set_dirs (d : list (string * bool)) (w : World) : World :=
  mkWorld (stores w) (use_exceptions w) d (fresh_name w) (clock w)
          (datastore_db w) (catalog w) (sld_body w) (fault w)
          (next_handle w) (trace w) (log w).

Definition set_next_handle (n : nat) (w : World) : World :=
  mkWorld (stores w) (use_exceptions w) (dirs w) (fresh_name w) (clock w)
          (datastore_db w) (catalog w) (sld_body w) (fault w)
          n (trace w) (log w).

Definition add_event (ev : Event) (w : World) : World :=
  mkWorld (stores w) (use_exceptions w) (dirs w) (fresh_name w) (clock w)
          (datastore_db w) (catalog w) (sld_body w) (fault w)
          (next_handle w) (trace w ++ [ev]) (log w).

Definition add_log (e : exn) (w : World) : World :=
  mkWorld (stores w) (use_exceptions w) (dirs w) (fresh_name w) (clock w)
          (datastore_db w) (catalog w) (sld_body w) (fault w)
          (next_handle w) (trace w) (log w ++ [e]).

(** Association lists keyed by strings. *)
Fixpoint lookup {V : Type} (k : string) (l : list (string * V)) : option V :=
  match l with
  | [] => None
  | (k', v) :: r => if String.eqb k k' then Some v else lookup k r
  end.

Fixpoint update {V : Type} (k : string) (v : V) (l : list (string * V))
  : list (string * V) :=
  match l with
  | [] => [(k, v)]
  | (k', v') :: r =>
      if String.eqb k k' then (k, v) :: r else (k', v') :: update k v r
  end.

(* ================================================================== *)
(** ** The monad: state passing with exceptions *)

Definition M (A : Type) : Type := World -> outcome A * World.

Definition ret {A} (a : A) : M A := fun w => (Ret a, w).

Definition raise {A} (e : exn) : M A := fun w => (Raise e, w).

Definition bind {A B} (m : M A) (k : A -> M B) : M B :=
  fun w =>
    match m w with
    | (Ret a, w') => k a w'
    | (Raise e, w') => (Raise e, w')
    end.

Declare Scope py_scope.
Delimit Scope py_scope with py.
Notation "x <- c1 ;; c2" := (bind c1 (fun x => c2))
  (at level 100, c1 at next level, right associativity) : py_scope.
Notation "c1 ;; c2" := (bind c1 (fun _ => c2))
  (at level 100, right associativity) : py_scope.
Local Open Scope py_scope.

Definition gets {A} (f : World -> A) : M A := fun w => (Ret (f w), w).

Definition modify (f : World -> World) : M unit := fun w => (Ret tt, f w).

(** A call into a collaborator: it raises when the world says so. *)
Definition external (op : Op) : M unit :=
  fun w => match fault w op with
           | Some e => (Raise e, w)
           | None => (Ret tt, w)
           end.

(** [for x in l: body(x)] *)
Fixpoint for_each {A} (l : list A) (body : A -> M unit) : M unit :=
  match l with
  | [] => ret tt
  | x :: r => body x ;; for_each r body
  end.

(** [logger.error(e)] *)
Definition logger_error (e : exn) : M unit := modify (add_log e).

(** [try: body  except Exception as e: handler(e)] *)
Definition try_except_Exception {A} (body : M A) (handler : exn -> M A) : M A :=
  fun w =>
    match body w with
    | (Raise e, w') =>
        if isinstance_Exception e then handler e w' else (Raise e, w')
    | r => r
    end.

(** [try: body  finally: return v], where [body] leaves in [v] the
    value of the returned variable and [v0] is what the variable holds
    when [body] did not complete: the [return] in [finally] discards
    whatever exception is still in flight. *)
Definition finally_return {A} (v0 : A) (body : M A) : M A :=
  fun w =>
    match body w with
    | (Ret v, w') => (Ret v, w')
    | (Raise _, w') => (Ret v0, w')
    end.

(** A generator function with a single [yield] outside any [try]: the
    code up to the [yield] gives the frame's locals and the yielded
    value, and the code after it runs on the locals.  When an
    exception is thrown in at the [yield], none of that code runs. *)
Record generator (L Y : Type) : Type := mkGen {
  gen_pre : M (L * Y);
  gen_post : L -> M L
}.

(** [__enter__] of [@contextmanager]: run to the [yield]. *)
Definition cm_enter {L Y} (g : generator L Y) : M (L * Y) := gen_pre g.

(** [__exit__(None, None, None)]: resume after the [yield] and run to
    the end of the generator. *)
Definition cm_exit_normal {L Y} (g : generator L Y) (locals : L) : M unit :=
  fun w =>
    match gen_post g locals w with
    | (Ret _, w') => (Ret tt, w')
    | (Raise e, w') => (Raise e, w')
    end.

(** [__exit__(type, e, tb)]: [e] is thrown in at the [yield], nothing
    catches it, no statement of the generator runs and [e] goes on. *)
Definition cm_exit_raise {L Y A} (g : generator L Y) (locals : L) (e : exn)
  : M A :=
  raise e.

(** [with g as y: body(y)] *)
Definition with_ {L Y A} (g : generator L Y) (body : Y -> M A) : M A :=
  fun w =>
    match cm_enter g w with
    | (Raise e, w1) => (Raise e, w1)
    | (Ret (locals, y), w1) =>
        match body y w1 with
        | (Ret a, w2) =>
            match cm_exit_normal g locals w2 with
            | (Ret _, w3) => (Ret a, w3)
            | (Raise e, w3) => (Raise e, w3)
            end
        | (Raise e, w2) => cm_exit_raise g locals e w2
        end
    end.

(* ================================================================== *)
(** ** The OGR driver *)

Definition store_layers (w : World) (loc : string) : list OgrLayer :=
  match lookup loc (stores w) with
  | Some ls => ls
  | None => []
  end.

(** The world once handle [h] has been given out. *)
Definition opened (h : Handle) (w : World) : World :=
  add_event (EvOpen h) (set_next_handle (S (next_handle w)) w).

(** [ogr.Open(path, update)]: a handle when the location can be
    reached; otherwise [None], or a [RuntimeError] under
    [ogr.UseExceptions()]. *)
Definition ogr_Open (path : string) (update_enabled : Z) : M (option Handle) :=
  fun w =>
    match lookup path (stores w) with
    | Some _ =>
        let h := mkHandle (next_handle w) path update_enabled in
        (Ret (Some h), opened h w)
    | None =>
        if use_exceptions w
        then (Raise (RuntimeError ("cannot open " ++ path)%string), w)
        else (Ret None, w)
    end.

(** Attribute access on a value that may be [None]. *)
Definition deref {A} (attr : string) (o : option A) : M A :=
  match o with
  | Some a => ret a
  | None => raise (AttributeError
              ("'NoneType' object has no attribute '" ++ attr ++ "'")%string)
  end.

(** [source.FlushCache()] *)
Definition FlushCache (source : option Handle) : M unit :=
  h <- deref "FlushCache" source ;;
  modify (add_event (EvFlushCache h)).

(** [source.GetLayerByName(name)]: the first layer of that name. *)
Definition GetLayerByName (source : option Handle) (name : string)
  : M (option OgrLayer) :=
  h <- deref "GetLayerByName" source ;;
  gets (fun w => find (fun l => String.eqb (GetName l) name)
                      (store_layers w (h_loc h))).

(** [for layer in source]: the layers in native order. *)
Definition iter_source (source : option Handle) : M (list OgrLayer) :=
  match source with
  | Some h => gets (fun w => store_layers w (h_loc h))
  | None => raise (TypeError "'NoneType' object is not iterable")
  end.

(** [ogr.GetDriverByName('GPKG').CreateDataSource(path)]: a new empty
    file; the driver refuses a path that exists already. *)
Definition CreateDataSource (path : string) : M (option Handle) :=
  external (Op_CreateDataSource path) ;;
  fun w =>
    match lookup path (stores w) with
    | Some _ =>
        if use_exceptions w
        then (Raise (RuntimeError ("already exists: " ++ path)%string), w)
        else (Ret None, w)
    | None =>
        let h := mkHandle (next_handle w) path 1 in
        (Ret (Some h),
         add_event (EvCreateDataSource path)
           (set_next_handle (S (next_handle w))
              (set_stores (stores w ++ [(path, [])]) w)))
    end.

(** [ds.CopyLayer(layer, new_name)]: the layer, under its new name, is
    added at the end of the store behind [ds]. *)
Definition CopyLayer (ds : option Handle) (layer : OgrLayer) (new_name : string)
  : M OgrLayer :=
  h <- deref "CopyLayer" ds ;;
  external (Op_CopyLayer new_name) ;;
  let copy := mkLayer new_name (lyr_schema layer) (lyr_rows layer) in
  modify (fun w =>
    add_event (EvCopyLayer (h_loc h) new_name)
      (set_stores (update (h_loc h) (store_layers w (h_loc h) ++ [copy])
                          (stores w)) w)) ;;
  ret copy.

(* ================================================================== *)
(** ** Collaborators of the standard library *)

(** [posixpath.join(a, b)] *)
Definition os_path_join (a b : string) : string :=
  if String.prefix "/" b then b
  else if (String.eqb a "" || PyStr.endswith a "/")%bool then (a ++ b)%string
  else (a ++ "/" ++ b)%string.

Definition os_path_isdir (p : string) : M bool :=
  gets (fun w => match lookup p (dirs w) with Some _ => true | None => false end).

(** [os.access(p, os.W_OK)] *)
Definition os_access_W_OK (p : string) : M bool :=
  gets (fun w => match lookup p (dirs w) with Some wr => wr | None => false end).

(** The format ["%Y_%m_%d-%H_%M_%S"] applied to a time. *)
Definition format_time (t : struct_time) : string :=
  (PyStr.four_digits (tm_year t) ++ "_" ++ PyStr.two_digits (tm_mon t) ++ "_"
   ++ PyStr.two_digits (tm_mday t) ++ "-" ++ PyStr.two_digits (tm_hour t)
   ++ "_" ++ PyStr.two_digits (tm_min t) ++ "_"
   ++ PyStr.two_digits (tm_sec t))%string.

(** [time.strftime("%Y_%m_%d-%H_%M_%S")] *)
Definition time_strftime : M string :=
  gets (fun w => format_time (clock w)).

(** [get_sld_body(url)] *)
Definition get_sld_body (url : string) : M string :=
  fun w => (sld_body w url, w).

(** [source = None] on a variable that refers to a handle: the
    variable's reference is given up. *)
Definition release (source : option Handle) : M unit :=
  match source with
  | Some h => modify (add_event (EvRelease h))
  | None => ret tt
  end.

(* ================================================================== *)
(** ** mixins.py: [OSGEOManagerMixin] *)

(** [build_connection_string]; a [None] argument prints as [None]. *)
Definition build_connection_string
  (DB_Name DB_Schema DB_user DB_Pass : option string)
  (DB_Port DB_server : string) : string :=
  ("PG: host=" ++ DB_server ++ " port=" ++ DB_Port
   ++ " dbname=" ++ PyStr.str_opt DB_Name
   ++ " active_schema=" ++ PyStr.str_opt DB_Schema
   ++ " user=" ++ PyStr.str_opt DB_user
   ++ " password=" ++ PyStr.str_opt DB_Pass)%string.

(** [open_source(source_path, update_enabled=0)], the generator under
    [@contextmanager] (lines 22-28).  The local [source] is the
    generator's reference to the handle, and the yielded value is a
    second reference to the same handle, kept by the caller.  On the
    normal path line 27 flushes and line 28 clears the local; when
    the body raises, neither line runs. *)
Definition open_source (source_path : string) (update_enabled : Z)
  : generator (option Handle) (option Handle) :=
  {| gen_pre := source <- ogr_Open source_path update_enabled ;;
                ret (source, source);
     gen_post := fun source =>
                   FlushCache source ;;
                   release source ;;
                   ret None |}.

(** [source_layer_exists(source, layername)]; a layer object is true
    whatever it holds. *)
Definition source_layer_exists (source : option Handle) (layername : string)
  : M bool :=
  layer <- GetLayerByName source layername ;;
  match layer with
  | Some _ => ret true
  | None => ret false
  end.

(** Modelled from the spec: [layer_manager.GpkgLayer] and
    [layers.OSGEOLayer] are not under src/; the spec's LayerView is a
    wrapper around one layer of an opened source that exposes its
    name. *)
Record GpkgLayer : Type := mkGpkgLayer {
  gpkg_layer : OgrLayer;
  gpkg_source : option Handle
}.

Definition name (l : GpkgLayer) : string := GetName (gpkg_layer l).

(** [str(layer.alternate).split(":").pop()] (lines 158-159) *)
Definition table_name (layer : CatalogLayer) : string :=
  PyStr.pop (PyStr.split ":" (alternate layer)).

Section Program.

(** [constants.STYLES_TABLE] and [constants.DOWNLOADS_DIR_PATH] are
    not under src/. *)
Variable STYLES_TABLE : string.
Variable DOWNLOADS_DIR_PATH : string.

(** The truth value the binding gives an open data source holding
    these layers ([if ds:]). *)
Variable bool_DataSource : list OgrLayer -> bool.

(** [get_source_layers(source)] *)
Definition get_source_layers (source : option Handle) : M (list GpkgLayer) :=
  layers <- iter_source source ;;
  ret (map (fun layer => mkGpkgLayer layer source)
           (filter (fun layer => negb (String.eqb (GetName layer) STYLES_TABLE))
                   layers)).

(** [bool(ds)] of what [open_source] yielded. *)
Definition truth (ds : option Handle) : M bool :=
  match ds with
  | None => ret false
  | Some h => gets (fun w => bool_DataSource (store_layers w (h_loc h)))
  end.

(* ---------------------------------------------------------------- *)
(** *** Collaborators of the repository that are not under src/ *)

(** Modelled from the spec: [os_utils.get_new_dir] is not under src/;
    it allocates a writable output directory below [base_dir]. *)
Definition get_new_dir (base_dir : string) : M string :=
  external Op_get_new_dir ;;
  n <- gets fresh_name ;;
  let d := os_path_join base_dir n in
  modify (fun w => set_dirs (update d true (dirs w)) w) ;;
  ret d.

(** A row of the style table. *)
Definition style_row : Type := (string * string * string * string)%type.

Definition style_schema : list field :=
  [("layer_name", "string", 0%Z); ("geometry_attribute", "string", 0%Z);
   ("style_name", "string", 0%Z); ("style_body", "string", 0%Z);
   ("default", "bool", 0%Z)].

(** Modelled from the spec: [styles.StyleManager] is not under src/;
    [create_table] creates the reserved style table inside the
    archive at its path. *)
Definition create_table (stm_path : string) : M unit :=
  external (Op_create_table stm_path) ;;
  fun w =>
    match lookup stm_path (stores w) with
    | None => (Raise (Exception ("cannot open " ++ stm_path)%string), w)
    | Some ls =>
        if existsb (fun l => String.eqb (GetName l) STYLES_TABLE) ls
        then (Ret tt, w)
        else (Ret tt,
              set_stores (update stm_path
                            (ls ++ [mkLayer STYLES_TABLE style_schema []])
                            (stores w)) w)
    end.

Definition add_row (row : list string) (l : OgrLayer) : OgrLayer :=
  if String.eqb (GetName l) STYLES_TABLE
  then mkLayer (GetName l) (lyr_schema l) (lyr_rows l ++ [row])
  else l.

(** Modelled from the spec: [StyleManager.add_style] inserts one row
    [(layer_name, geometry_attribute, style_name, style_body)],
    marked default, into the style table. *)
Definition add_style (stm_path : string) (style : style_row) (default : bool)
  : M unit :=
  match style with
  | (layer_name, gattr, style_name, body) =>
      external (Op_add_style layer_name) ;;
      fun w =>
        match lookup stm_path (stores w) with
        | None => (Raise (Exception ("cannot open " ++ stm_path)%string), w)
        | Some ls =>
            let row := [layer_name; gattr; style_name; body;
                        if default then "True" else "False"] in
            (Ret tt,
             set_stores (update stm_path (map (add_row row) ls) (stores w)) w)
        end
  end.

(* ---------------------------------------------------------------- *)
(** *** base_manager.py *)

(** [get_connection(database_name=None, schema=None)] *)
Definition get_connection (database_name schema : option string) : M string :=
  db_settings <- gets datastore_db ;;
  let db_name :=
    match database_name with
    | Some n => if PyStr.truthy n then Some n else db_NAME db_settings
    | None => db_NAME db_settings
    end in
  let user := db_USER db_settings in
  let password := db_PASSWORD db_settings in
  let host := match db_HOST db_settings with Some h => h | None => "localhost" end in
  let port := match db_PORT db_settings with Some p => p | None => "5432" end in
  ret (build_connection_string db_name schema user password port host).

(** Lines 126-127 of [postgis_as_gpkg]: the suffix is added when it
    is missing. *)
Definition gpkg_path (dest_path : string) : string :=
  if negb (PyStr.endswith dest_path ".gpkg") then (dest_path ++ ".gpkg")%string
  else dest_path.

(** [postgis_as_gpkg(connectionString, dest_path, layernames=None)] *)
Definition postgis_as_gpkg (connectionString dest_path : string)
  (layernames : option (list string)) : M string :=
  let dest_path := gpkg_path dest_path in
  with_ (open_source connectionString 0) (fun postgis_source =>
    ds <- CreateDataSource dest_path ;;
    layers <-
      match layernames with
      | None | Some [] => get_source_layers postgis_source
      | Some names =>
          all <- get_source_layers postgis_source ;;
          ret (filter (fun layer => existsb (String.eqb (name layer)) names) all)
      end ;;
    for_each layers (fun lyr =>
      CopyLayer ds (gpkg_layer lyr) (name lyr) ;; ret tt)) ;;
  ret dest_path.

(** The body of the loop over [all_layers] (lines 157-170), on the
    two lists it extends. *)
Definition select_layer (ds : option Handle)
  (acc : list style_row * list string) (layer : CatalogLayer)
  : M (list style_row * list string) :=
  let (layer_styles, table_names) := acc in
  let table_name := table_name layer in
  found <- source_layer_exists ds table_name ;;
  if found : bool then
    let table_names := table_names ++ [table_name] in
    gattr <- deref "attribute" (gml_attribute layer) ;;
    layer_style <- deref "sld_url" (default_style layer) ;;
    let url := sld_url layer_style in
    let sname := style_name layer_style in
    body <- get_sld_body url ;;
    ret (layer_styles ++ [(table_name, gattr, sname, body)], table_names)
  else ret acc.

Fixpoint select_layers (ds : option Handle)
  (acc : list style_row * list string) (all_layers : list CatalogLayer)
  : M (list style_row * list string) :=
  match all_layers with
  | [] => ret acc
  | layer :: r => acc' <- select_layer ds acc layer ;; select_layers ds acc' r
  end.

(** [Layer.objects.all()] *)
Definition Layer_objects_all : M (list CatalogLayer) :=
  external Op_Layer_objects_all ;; gets catalog.

(** The body of the scope in [backup_portal] (lines 153-176). *)
Definition backup_steps (package_dir connection_string : string)
  (ds : option Handle) : M unit :=
  t <- truth ds ;;
  if t : bool then
    all_layers <- Layer_objects_all ;;
    sel <- select_layers ds ([], []) all_layers ;;
    let (layer_styles, table_names) := sel : list style_row * list string in
    postgis_as_gpkg connection_string package_dir (Some table_names) ;;
    create_table package_dir ;;
    for_each layer_styles (fun style => add_style package_dir style true)
  else ret tt.

(** The [try] block of [backup_portal] (lines 148-176). *)
Definition backup_try (dest_path package_dir connection_string : string)
  : M unit :=
  isdir <- os_path_isdir dest_path ;;
  writable <- (if isdir : bool then os_access_W_OK dest_path else ret false) ;;
  (if (negb isdir || negb writable)%bool
   then raise (Exception "maybe destination is not writable or not a directory")
   else ret tt) ;;
  with_ (open_source connection_string 0)
        (backup_steps package_dir connection_string).

(** The [try] statement of [backup_portal] (lines 147-182):
    [final_path], [None] so far, is set after the block, an
    [Exception] is logged, and [finally] returns [final_path]. *)
Definition backup_protected (dest_path package_dir connection_string : string)
  : M (option string) :=
  finally_return None
    (try_except_Exception
       (backup_try dest_path package_dir connection_string ;;
        ret (Some dest_path))
       (fun e => logger_error e ;; ret None)).

(** Lines 142-143: a destination that is [None] or empty is
    replaced by a new directory. *)
Definition resolve_destination (dest_path : option string) : M string :=
  match dest_path with
  | Some d => if PyStr.truthy d then ret d else get_new_dir DOWNLOADS_DIR_PATH
  | None => get_new_dir DOWNLOADS_DIR_PATH
  end.

(** [backup_portal(dest_path=None)] *)
Definition backup_portal (dest_path : option string) : M (option string) :=
  dest_path <- resolve_destination dest_path ;;
  file_suff <- time_strftime ;;
  let package_dir := os_path_join dest_path ("backup_" ++ file_suff ++ ".gpkg")%string in
  connection_string <- get_connection None None ;;
  backup_protected dest_path package_dir connection_string.

(* ---------------------------------------------------------------- *)
(** *** base_manager.py: the [OSGEOManager] object *)

Record OSGEOManager : Type := mkManager {
  path : string;
  source : option Handle
}.

(** [__init__(self, package_path)] with [get_source] (lines 27-34):
    the handle yielded inside the scope is kept in [self.source]. *)
Definition OSGEOManager_init (package_path : string) : M OSGEOManager :=
  src <- with_ (open_source package_path 0) (fun source => ret source) ;;
  ret (mkManager package_path src).

(** [layer_exists(self, layername)] *)
Definition layer_exists (self : OSGEOManager) (layername : string) : M bool :=
  source_layer_exists (source self) layername.

(** [get_layers(self)] *)
Definition get_layers (self : OSGEOManager) : M (list GpkgLayer) :=
  get_source_layers (source self).

(** [get_layernames(self)] *)
Definition get_layernames (self : OSGEOManager) : M (list string) :=
  layers <- get_layers self ;;
  ret (map name layers).

(** [get_layer_by_name(self, layername)] *)
Definition get_layer_by_name (self : OSGEOManager) (layername : string)
  : M (option GpkgLayer) :=
  found <- layer_exists self layername ;;
  if found : bool then
    layer <- GetLayerByName (source self) layername ;;
    match layer with
    | Some l => ret (Some (mkGpkgLayer l (source self)))
    | None => raise (TypeError "OSGEOLayer of None")
    end
  else ret None.

(** Modelled from the spec: [OSGEOLayer.copy_to_source] is not under
    src/; it creates the layer and its features in the destination
    store, replacing a layer of the same name when [overwrite] is
    set, and returns the new layer. *)
Definition copy_to_source (layer : GpkgLayer) (dest : option Handle)
  (overwrite temporary launder : bool) (new_name : option string)
  : M GpkgLayer :=
  h <- deref "CopyLayer" dest ;;
  let target := match new_name with Some n => n | None => name layer end in
  external (Op_CopyLayer target) ;;
  existing <- gets (fun w => store_layers w (h_loc h)) ;;
  let taken := existsb (fun l => String.eqb (GetName l) target) existing in
  if (taken && negb overwrite)%bool
  then raise (Exception ("layer exists: " ++ target)%string)
  else
    let copy := mkLayer target (lyr_schema (gpkg_layer layer))
                        (lyr_rows (gpkg_layer layer)) in
    let kept := filter (fun l => negb (String.eqb (GetName l) target)) existing in
    modify (fun w =>
      add_event (EvCopyLayer (h_loc h) target)
        (set_stores (update (h_loc h) (kept ++ [copy]) (stores w)) w)) ;;
    ret (mkGpkgLayer copy dest).

(** [assert x] on a value that may be [None]. *)
Definition assert_ {A} (x : option A) : M A :=
  match x with
  | Some a => ret a
  | None => raise AssertionError
  end.

(** The body of the scope in [layer_to_postgis] (lines 104-112);
    [dest] is the handle the scope yields. *)
Definition copy_steps (self : OSGEOManager) (layername : string)
  (overwrite temporary launder : bool) (new_name : option string)
  (dest : option Handle) : M GpkgLayer :=
  layer <- GetLayerByName (source self) layername ;;
  layer <- assert_ layer ;;
  let layer := mkGpkgLayer layer dest in
  copy_to_source layer dest overwrite temporary launder new_name.

(** [layer_to_postgis(self, layername, connectionString, overwrite,
    temporary, launder, name)] (lines 96-112) *)
Definition layer_to_postgis (self : OSGEOManager) (layername : string)
  (connectionString : string) (overwrite temporary launder : bool)
  (new_name : option string) : M GpkgLayer :=
  with_ (open_source connectionString 0)
        (copy_steps self layername overwrite temporary launder new_name).

End Program.

(* ================================================================== *)
(** ** Sample worlds *)

Module Sample.

Definition STYLES : string := "layer_styles".
Definition DOWNLOADS : string := "/var/downloads".

(** [DataSource.__len__]: a source with no layer is false. *)
Definition len_truth (ls : list OgrLayer) : bool :=
  match ls with [] => false | _ => true end.

Definition db : DbSettings :=
  mkDb (Some "geonode_data") (Some "geonode") (Some "secret")
       (Some "db.local") None.

Definition conn : string :=
  "PG: host=db.local port=5432 dbname=geonode_data active_schema=None user=geonode password=secret".

Definition lyr (n : string) : OgrLayer :=
  mkLayer n [("fid", "int", 10%Z); ("geom", "point", 0%Z)] [["1"; "POINT(0 0)"]].

Definition cat (n : string) : CatalogLayer :=
  mkCatalogLayer ("geonode:" ++ n)%string (Some "the_geom")
    (Some (mkStyle (n ++ "_style")%string ("http://gs/styles/" ++ n ++ ".sld")%string)).

Definition no_fault : Op -> option exn := fun _ => None.

Definition world (layers : list OgrLayer) (registered : list CatalogLayer)
  (directories : list (string * bool)) (faults : Op -> option exn) : World :=
  mkWorld [(conn, layers)] false directories "backup_dir"
          (mkTime 2018 5 1 12 30 0) db registered
          (fun url => Ret ("<sld>" ++ url ++ "</sld>")%string)
          faults 0 [] [].

(** Scenario A of the design: source [roads, parcels, layer_styles],
    catalog [roads, parcels, lakes], a writable [/tmp/out]. *)
Definition scenario_A : World :=
  world [lyr "roads"; lyr "parcels"; lyr STYLES]
        [cat "roads"; cat "parcels"; cat "lakes"]
        [("/tmp/out", true)] no_fault.

(** Nothing registered in the catalog is present in the source. *)
Definition nothing_selected : World :=
  world [lyr "roads"; lyr "parcels"] [cat "lakes"]
        [("/tmp/out", true)] no_fault.

(** The style table itself is registered in the catalog. *)
Definition styles_registered : World :=
  world [lyr "roads"; lyr STYLES] [cat "roads"; cat STYLES]
        [("/tmp/out", true)] no_fault.

(** The destination exists but is read-only. *)
Definition read_only_dest : World :=
  world [lyr "roads"] [cat "roads"] [("/tmp/out", false)] no_fault.

(** The copy of [roads] is interrupted from the keyboard. *)
Definition interrupted : World :=
  world [lyr "roads"] [cat "roads"] [("/tmp/out", true)]
        (fun op => match op with
                   | Op_CopyLayer _ => Some KeyboardInterrupt
                   | _ => None
                   end).

(** The copy of [roads] fails in the driver. *)
Definition copy_fails : World :=
  world [lyr "roads"] [cat "roads"] [("/tmp/out", true)]
        (fun op => match op with
                   | Op_CopyLayer _ => Some (RuntimeError "disk full")
                   | _ => None
                   end).

Definition backup (dest : option string) : M (option string) :=
  backup_portal STYLES DOWNLOADS len_truth dest.

Definition archive : string := "/tmp/out/backup_2018_05_01-12_30_00.gpkg".

(** The names of the layers stored at a location. *)
Definition names_at (w : World) (loc : string) : list string :=
  map GetName (store_layers w loc).

(** Scenario B of the design: the two schemas compared. *)
Definition scenario_B_1 : list field :=
  [("id", "int", 10%Z); ("name", "string", 50%Z)].

Definition scenario_B_2 : list field :=
  [("ID", "int", 10%Z); ("name", "string", 50%Z)].

(** A handle on the live source of the sample worlds. *)
Definition live : Handle := mkHandle 0 conn 0.

(** A package on disk next to the live source, and the manager
    object on it. *)
Definition package : string := "/data/portal.gpkg".

Definition with_package (w : World) : World :=
  set_stores (stores w ++ [(package, [lyr "roads"])]) w.

Definition manager : OSGEOManager := mkManager package (Some (mkHandle 7 package 0)).

End Sample.

(* ================================================================== *)
(** ** Vocabulary of the statements *)

(** A layer of that name is stored at the location. *)
Definition present (w : World) (loc : string) (nm : string) : bool :=
  existsb (fun l => String.eqb (GetName l) nm) (store_layers w loc).

(** The selected layer names of a backup: the catalog's table names
    that exist in the live source, in catalog order. *)
Definition selected_names (w : World) (loc : string) : list string :=
  filter (present w loc) (map table_name (catalog w)).

(** The names [get_source_layers] lists for a location. *)
Definition listed_names (STYLES_TABLE : string) (w : World) (loc : string)
  : list string :=
  map GetName
      (filter (fun l => negb (String.eqb (GetName l) STYLES_TABLE))
              (store_layers w loc)).

(** The names [postgis_as_gpkg] copies when given a list of layer
    names: an empty list, like [None], does not filter. *)
Definition expected_copies (STYLES_TABLE : string) (names : list string)
  (w : World) (loc : string) : list string :=
  match names with
  | [] => listed_names STYLES_TABLE w loc
  | _ => filter (fun nm => existsb (String.eqb nm) names)
                (listed_names STYLES_TABLE w loc)
  end.

(** The layer copies the driver was asked for: destination and name. *)
Fixpoint copies (tr : list Event) : list (string * string) :=
  match tr with
  | [] => []
  | EvCopyLayer dest nm :: r => (dest, nm) :: copies r
  | _ :: r => copies r
  end.

(** The files the driver was asked to create. *)
Fixpoint creations (tr : list Event) : list string :=
  match tr with
  | [] => []
  | EvCreateDataSource p :: r => p :: creations r
  | _ :: r => creations r
  end.

(** The connection string [get_connection()] builds in a world. *)
Definition live_connection (w : World) : string :=
  let s := datastore_db w in
  build_connection_string (db_NAME s) None (db_USER s) (db_PASSWORD s)
    (match db_PORT s with Some p => p | None => "5432" end)
    (match db_HOST s with Some h => h | None => "localhost" end).

(** The archive path of a backup into [dest_path] in a world. *)
Definition archive_path (dest_path : string) (w : World) : string :=
  os_path_join dest_path ("backup_" ++ format_time (clock w) ++ ".gpkg")%string.

(** The exceptions the repository keeps for a layer that a source does
    not hold ([exceptions.SourceException] and
    [exceptions.OSGEOLayerException], raised at lines 40 and 44 of
    base_manager.py): the design's [LayerNotFoundError]. *)
Definition LayerNotFoundError (e : exn) : bool :=
  match e with
  | SourceException _ | OSGEOLayerException _ => true
  | _ => false
  end.

(** "[layer_exists(source, name)] is true iff [name] appears in
    [list_layers(source)]", at one open source and one name. *)
Definition exists_iff_listed (STYLES_TABLE : string) (w : World) (h : Handle)
  (nm : string) : Prop :=
  fst (source_layer_exists (Some h) nm w) = Ret true <->
  exists layers,
    fst (get_source_layers STYLES_TABLE (Some h) w) = Ret layers
    /\ In nm (map name layers).

(** "A location that cannot be opened makes [open] raise", at one
    location: entering the scope ends in an exception, whichever. *)
Definition unopenable_raises (source_path : string) (update_enabled : Z)
  (w : World) : Prop :=
  lookup source_path (stores w) = None ->
  exists e, fst (cm_enter (open_source source_path update_enabled) w) = Raise e.


(** "Copying a layer the source does not hold raises
    [LayerNotFoundError] and leaves the destination store unmodified",
    at one call of [layer_to_postgis] with its default flags. *)
Definition missing_layer_raises_LayerNotFoundError
  (self : OSGEOManager) (layername connectionString : string) (w : World) : Prop :=
  forall h,
    source self = Some h ->
    present w (h_loc h) layername = false ->
    exists e w',
      layer_to_postgis self layername connectionString true false false None w
      = (Raise e, w')
      /\ LayerNotFoundError e = true
      /\ stores w' = stores w.

Section BackupStatements.

Variables STYLES_TABLE DOWNLOADS_DIR_PATH : string.
Variable bool_DataSource : list OgrLayer -> bool.

Local Abbreviation backup :=
  (backup_portal STYLES_TABLE DOWNLOADS_DIR_PATH bool_DataSource).

(** "A successful backup returns the path of the new archive", at
    one given destination. *)
Definition returns_archive_path (d : string) (w : World) : Prop :=
  forall p w',
    backup (Some d) w = (Ret (Some p), w') -> p = archive_path d w.

(** "A given destination that is not a writable directory gives an
    absent result, and no file is created", at one given
    destination. *)
Definition unwritable_creates_nothing (d : string) (w : World) : Prop :=
  lookup d (dirs w) <> Some true ->
  exists w',
    backup (Some d) w = (Ret None, w')
    /\ creations (trace w') = creations (trace w).

(** "An exception raised inside the protected steps is caught,
    logged, and an absent result returned", at one given
    destination. *)
Definition raised_is_logged (d : string) (w : World) : Prop :=
  forall e w1,
    backup_try STYLES_TABLE bool_DataSource d (archive_path d w)
               (live_connection w) w = (Raise e, w1) ->
    exists w', backup (Some d) w = (Ret None, w') /\ In e (log w').

(** "The layers copied into the archive are exactly the selected
    layers", at one given destination. *)
Definition copies_exactly_selected (d : string) (w : World) : Prop :=
  forall p w',
    backup (Some d) w = (Ret (Some p), w') ->
    forall nm,
      In (gpkg_path (archive_path d w), nm)
         (skipn (length (copies (trace w))) (copies (trace w')))
      <-> In nm (selected_names w (live_connection w)).

End BackupStatements.

(* ================================================================== *)
(** ** base_manager.py: [check_schema_geonode] *)

(** [Layer.objects.get(alternate=glayername)]: the one catalog row of
    that name; Django raises [DoesNotExist] or
    [MultipleObjectsReturned], both instances of [Exception], when
    there is none or more than one. *)
Definition Layer_objects_get (glayername : string) : M CatalogLayer :=
  rows <- gets (fun w => filter (fun l => String.eqb (alternate l) glayername)
                                (catalog w)) ;;
  match rows with
  | [] => raise (Exception "Layer matching query does not exist.")
  | [l] => ret l
  | _ => raise (Exception "get() returned more than one Layer")
  end.

(** [OSGEOManager(package_path, is_postgis=True)] (line 41):
    [__init__(self, package_path)] (line 27) has no such keyword, so
    the call itself raises. *)
Definition OSGEOManager_init_is_postgis (package_path : string) : M OSGEOManager :=
  raise (TypeError "__init__() got an unexpected keyword argument 'is_postgis'").

(** [if not x: raise e], on a value that may be [None]. *)
Definition or_raise {A} (x : option A) (e : exn) : M A :=
  match x with
  | Some a => ret a
  | None => raise e
  end.

(** [check_schema_geonode(self, layername, glayername, ignore_case)]
    (lines 36-47); [get_full_schema()] of a layer is its full schema. *)
Definition check_schema_geonode (self : OSGEOManager)
  (layername glayername : string) (ignore_case : bool) : M SchemaDiffReport :=
  gpkg_lyr <- get_layer_by_name self layername ;;
  glayer <- Layer_objects_get glayername ;;
  gpkg_lyr <- or_raise gpkg_lyr
                (SourceException "Cannot find this layer in Source") ;;
  connection <- get_connection None None ;;
  geonode_manager <- OSGEOManager_init_is_postgis connection ;;
  glayer <- get_layer_by_name geonode_manager
              (PyStr.pop (PyStr.split ":" glayername)) ;;
  glayer <- or_raise glayer
              (OSGEOLayerException
                 ("Layer " ++ glayername ++ " Cannot be found in Source")%string) ;;
  ret (compare_schema (lyr_schema (gpkg_layer gpkg_lyr))
                      (lyr_schema (gpkg_layer glayer)) ignore_case).

(* ================================================================== *)
(** ** Vocabulary of the further statements *)

(** The schema as [compare_schema] compares it: names lower-cased
    under [ignore_case]. *)
Definition normalised (ignore_case : bool) (S : list field) : list field :=
  if ignore_case then lower_names S else S.

(** The field names that [compare_schema] lower-cases are ASCII: all
    of them under [ignore_case], none otherwise. *)
Definition lowers_ascii (ignore_case : bool) (S : list field) : bool :=
  if ignore_case then forallb (fun f => PyStr.isascii (field_name f)) S
  else true.

(** Two schemas that differ at most in the case of their field names,
    position by position. *)
Definition case_variant (S1 S2 : list field) : Prop :=
  Forall2 (fun f g : field =>
             PyStr.lower (field_name f) = PyStr.lower (field_name g)
             /\ snd (fst f) = snd (fst g) /\ snd f = snd g) S1 S2.

(** Ascending by field name, from each field to the next. *)
Fixpoint sorted_by_name (l : list field) : bool :=
  match l with
  | f :: r =>
      match r with
      | g :: _ => String.leb (field_name f) (field_name g) && sorted_by_name r
      | [] => true
      end
  | [] => true
  end.

(** A relation between the world before and the world after that a
    computation keeps on every run, however the run ends. *)
Definition respects {A} (R : World -> World -> Prop) (m : M A) : Prop :=
  forall w, R w (snd (m w)).

(** An observation of the world is the same after as before. *)
Definition kept {X} (f : World -> X) (w w' : World) : Prop := f w' = f w.

(** What is stored at a location, if anything. *)
Definition store_at (loc : string) (w : World) : option (list OgrLayer) :=
  lookup loc (stores w).

Module MoreSamples.

(** A sample world whose database cannot be reached. *)
Definition unreachable_db : World :=
  set_stores [] Sample.scenario_A.

(** A sample world whose catalog registers a layer without default
    style. *)
Definition unstyled : World :=
  Sample.world [Sample.lyr "roads"; Sample.lyr "parcels"]
    [Sample.cat "roads"; mkCatalogLayer "geonode:parcels" (Some "the_geom") None]
    [("/tmp/out", true)] Sample.no_fault.

(** A sample world whose database holds no layer at all. *)
Definition empty_db : World :=
  Sample.world [] [Sample.cat "roads"] [("/tmp/out", true)] Sample.no_fault.

End MoreSamples.

(* ================================================================== *)
(** ** The schema comparator *)

Section Comparator.

Lemma field_eqb_sym (f g : field) : field_eqb f g = field_eqb g f.
Proof.
  destruct f as [[n1 t1] w1], g as [[n2 t2] w2]; simpl.
  now rewrite (String.eqb_sym n1 n2), (String.eqb_sym t1 t2), (Z.eqb_sym w1 w2).
Qed.

Lemma field_eqb_eq (f g : field) : field_eqb f g = true <-> f = g.
Proof.
  destruct f as [[n1 t1] w1], g as [[n2 t2] w2]; simpl.
  rewrite !andb_true_iff, !String.eqb_eq, Z.eqb_eq.
  split; [intros [[-> ->] ->]; reflexivity | intros H; inversion H; auto].
Qed.

Lemma schema_eqb_sym (s1 s2 : list field) : schema_eqb s1 s2 = schema_eqb s2 s1.
Proof.
  revert s2; induction s1 as [|f r1 IH]; intros [|g r2]; simpl; auto.
  now rewrite field_eqb_sym, IH.
Qed.

Lemma schema_eqb_eq (s1 s2 : list field) : schema_eqb s1 s2 = true <-> s1 = s2.
Proof.
  revert s2; induction s1 as [|f r1 IH]; intros [|g r2]; simpl;
    try (split; [discriminate | discriminate]); try tauto.
  rewrite andb_true_iff, field_eqb_eq, IH.
  split; [intros [-> ->]; reflexivity | intros H; inversion H; auto].
Qed.

(** [field in schema] is list membership. *)
Lemma field_in_In (f : field) (s : list field) : field_in f s = true <-> In f s.
Proof.
  unfold field_in; rewrite existsb_exists; split.
  - intros (g & Hg & E); apply field_eqb_eq in E; now subst.
  - intros H; exists f; split; [assumption | now apply field_eqb_eq].
Qed.

(** Nothing is missing from a schema compared with itself. *)
Lemma no_field_missing (s : list field) :
  filter (fun f => negb (field_in f s)) s = [].
Proof.
  assert (G : forall l, (forall f, In f l -> In f s) ->
                        filter (fun f => negb (field_in f s)) l = []).
  { induction l as [|f r IH]; intros Hl; simpl; [reflexivity|].
    rewrite (proj2 (field_in_In f s)) by (apply Hl; now left); simpl.
    apply IH; intros g Hg; apply Hl; now right. }
  apply G; auto.
Qed.

(** A schema is compatible with itself, with nothing new and nothing
    deleted. *)
Lemma compare_schema_reflexive (S : list field) (ignore_case : bool) :
  compare_schema S S ignore_case
  = {| compatible := true; deleted_fields := []; new_fields := [] |}.
Proof.
  unfold compare_schema.
  rewrite no_field_missing, (proj2 (schema_eqb_eq _ _) eq_refl).
  reflexivity.
Qed.

(** C10.  For all pairs of full schemas and either value of
    [ignore_case], [compare(S1,S2).compatible] equals
    [compare(S2,S1).compatible] (symmetry), and
    [compare(S1,S2).new_fields] equals [compare(S2,S1).deleted_fields]
    (duality). *)
Theorem compare_schema_symmetry_duality (S1 S2 : list field) (ignore_case : bool) :
  compatible (compare_schema S1 S2 ignore_case)
  = compatible (compare_schema S2 S1 ignore_case)
  /\ new_fields (compare_schema S1 S2 ignore_case)
     = deleted_fields (compare_schema S2 S1 ignore_case).
Proof.
  split.
  - unfold compare_schema; simpl; apply schema_eqb_sym.
  - reflexivity.
Qed.

(** C9.  On the schemas [{("id","int",10),("name","string",50)}] and
    [{("ID","int",10),("name","string",50)}]: without [ignore_case],
    [compatible] is false, [new_fields] is [[("id","int",10)]] and
    [deleted_fields] is [[("ID","int",10)]]; with [ignore_case],
    [compatible] is true and both lists are empty.  The same holds
    with the fields of either schema listed in the other order. *)
Theorem compare_schema_scenario_B :
  forall S1 S2,
    In S1 [Sample.scenario_B_1; rev Sample.scenario_B_1] ->
    In S2 [Sample.scenario_B_2; rev Sample.scenario_B_2] ->
    compare_schema S1 S2 false
    = {| compatible := false;
         deleted_fields := [("ID", "int", 10%Z)];
         new_fields := [("id", "int", 10%Z)] |}
    /\ compare_schema S1 S2 true
       = {| compatible := true; deleted_fields := []; new_fields := [] |}.
Proof.
  intros S1 S2 H1 H2; simpl in H1, H2.
  destruct H1 as [<- | [<- | []]]; destruct H2 as [<- | [<- | []]];
    split; vm_compute; reflexivity.
Qed.

Lemma compare_schema_scenario_B_witness :
  compare_schema Sample.scenario_B_1 Sample.scenario_B_2 false
  = {| compatible := false;
       deleted_fields := [("ID", "int", 10%Z)];
       new_fields := [("id", "int", 10%Z)] |}
  /\ compare_schema Sample.scenario_B_1 Sample.scenario_B_2 true
     = {| compatible := true; deleted_fields := []; new_fields := [] |}.
Proof.
  apply (@compare_schema_scenario_B Sample.scenario_B_1 Sample.scenario_B_2);
    simpl; auto.
Defined.

End Comparator.

(* ================================================================== *)
(** ** Running the monad *)

Section Runs.

Context {A B : Type}.

(** A sequence that returns ran both of its parts to their end. *)
Lemma bind_inv (m : M A) (k : A -> M B) w b w' :
  bind m k w = (Ret b, w') ->
  exists a w1, m w = (Ret a, w1) /\ k a w1 = (Ret b, w').
Proof.
  unfold bind; destruct (m w) as [[a | e] w1]; intros H.
  - now exists a, w1.
  - discriminate.
Qed.

End Runs.

Lemma find_existsb {X} (f : X -> bool) (l : list X) :
  match find f l with Some _ => true | None => false end = existsb f l.
Proof.
  induction l as [|x r IH]; simpl; [reflexivity|].
  destruct (f x); simpl; auto.
Qed.

Lemma source_layer_exists_run (h : Handle) (nm : string) (w : World) :
  source_layer_exists (Some h) nm w = (Ret (present w (h_loc h) nm), w).
Proof.
  unfold source_layer_exists, GetLayerByName, present, bind, deref, gets, ret.
  rewrite <- find_existsb.
  destruct (find _ _); reflexivity.
Qed.

Lemma get_source_layers_run (ST : string) (h : Handle) (w : World) :
  get_source_layers ST (Some h) w
  = (Ret (map (fun l => mkGpkgLayer l (Some h))
              (filter (fun l => negb (String.eqb (GetName l) ST))
                      (store_layers w (h_loc h)))), w).
Proof. reflexivity. Qed.

Lemma names_of_views (src : option Handle) (ls : list OgrLayer) :
  map name (map (fun l => mkGpkgLayer l src) ls) = map GetName ls.
Proof. rewrite map_map; reflexivity. Qed.

(* ================================================================== *)
(** ** The layer catalog of a source *)

Section LayerCatalog.

Variable STYLES_TABLE : string.

(** The reserved name is never listed. *)
Lemma reserved_never_listed (w : World) (loc : string) :
  ~ In STYLES_TABLE (listed_names STYLES_TABLE w loc).
Proof.
  unfold listed_names; rewrite in_map_iff.
  intros (l & E & Hl); apply filter_In in Hl as [_ Hl].
  rewrite <- E, String.eqb_refl in Hl; discriminate.
Qed.

(** C1, as the code has it.  For every open source and every layer
    name other than the reserved style-table name,
    [layer_exists(source, name)] is true iff a layer of that name
    appears in [list_layers(source)]; the reserved name itself is
    never listed, so for it [layer_exists] alone tells whether the
    source holds the table. *)
Theorem layer_exists_iff_listed_unless_reserved
  (w : World) (h : Handle) (nm : string) :
  nm <> STYLES_TABLE ->
  exists_iff_listed STYLES_TABLE w h nm
  /\ (forall layers,
        fst (get_source_layers STYLES_TABLE (Some h) w) = Ret layers ->
        ~ In STYLES_TABLE (map name layers)).
Proof.
  intros Hnm; split.
  - unfold exists_iff_listed.
    rewrite source_layer_exists_run, get_source_layers_run; simpl.
    unfold present; split.
    + intros H; injection H as H.
      apply existsb_exists in H as (l & Hl & E); apply String.eqb_eq in E.
      eexists; split; [reflexivity|].
      rewrite names_of_views; apply in_map_iff.
      exists l; split; [assumption|].
      apply filter_In; split; [assumption|].
      rewrite E; apply negb_true_iff, String.eqb_neq; assumption.
    + intros (layers & E & Hin); injection E as <-.
      rewrite names_of_views in Hin; apply in_map_iff in Hin as (l & E & Hl).
      apply filter_In in Hl as [Hl _].
      f_equal; apply existsb_exists; exists l; split; [assumption|].
      now apply String.eqb_eq.
  - intros layers E; rewrite get_source_layers_run in E; simpl in E.
    injection E as <-; rewrite names_of_views.
    apply (reserved_never_listed w (h_loc h)).
Qed.

End LayerCatalog.

Lemma layer_exists_iff_listed_witness :
  exists_iff_listed Sample.STYLES Sample.scenario_A Sample.live "roads"
  /\ (forall layers,
        fst (get_source_layers Sample.STYLES (Some Sample.live) Sample.scenario_A)
        = Ret layers ->
        ~ In Sample.STYLES (map name layers)).
Proof.
  apply (@layer_exists_iff_listed_unless_reserved
           Sample.STYLES Sample.scenario_A Sample.live "roads").
  intros H; discriminate H.
Defined.

(** C1 as stated fails: in scenario A the source holds the style table,
    [layer_exists] answers true for its name, and [list_layers] does
    not list it. *)
Lemma layer_exists_reserved_not_listed :
  ~ exists_iff_listed Sample.STYLES Sample.scenario_A Sample.live Sample.STYLES.
Proof.
  unfold exists_iff_listed; intros [H _].
  destruct (H eq_refl) as (layers & E & Hin).
  vm_compute in E; injection E as <-.
  vm_compute in Hin.
  repeat (destruct Hin as [Hin | Hin]; [discriminate Hin|]); exact Hin.
Qed.

(* ================================================================== *)
(** ** The scope of an opened source *)

Section SourceHandle.

Context {A : Type}.
Variables (source_path : string) (update_enabled : Z).
Variable body : option Handle -> M A.

Lemma enter_opened w h w1 :
  ogr_Open source_path update_enabled w = (Ret (Some h), w1) ->
  cm_enter (open_source source_path update_enabled) w
  = (Ret (Some h, Some h), w1).
Proof.
  intros H; unfold cm_enter; simpl.
  unfold bind; now rewrite H.
Qed.

(** The three ways through a scope, by what the driver's [Open] did. *)
Lemma with_opened w h w1 :
  ogr_Open source_path update_enabled w = (Ret (Some h), w1) ->
  with_ (open_source source_path update_enabled) body w
  = match body (Some h) w1 with
    | (Ret a, w2) =>
        (Ret a, add_event (EvRelease h) (add_event (EvFlushCache h) w2))
    | (Raise e, w2) => (Raise e, w2)
    end.
Proof.
  intros H; unfold with_.
  rewrite (@enter_opened w h w1 H).
  destruct (body (Some h) w1) as [[a | e] w2]; reflexivity.
Qed.

Lemma with_absent w w1 :
  ogr_Open source_path update_enabled w = (Ret None, w1) ->
  with_ (open_source source_path update_enabled) body w
  = match body None w1 with
    | (Ret _, w2) =>
        (Raise (AttributeError
           "'NoneType' object has no attribute 'FlushCache'"), w2)
    | (Raise e, w2) => (Raise e, w2)
    end.
Proof.
  intros H; unfold with_, cm_enter; simpl.
  unfold bind at 1; rewrite H; simpl.
  destruct (body None w1) as [[a | e] w2]; reflexivity.
Qed.

Lemma with_refused w e w1 :
  ogr_Open source_path update_enabled w = (Raise e, w1) ->
  with_ (open_source source_path update_enabled) body w = (Raise e, w1).
Proof.
  intros H; unfold with_, cm_enter; simpl.
  unfold bind at 1; now rewrite H.
Qed.


(** C3, as the code has it.  For a location that cannot be opened,
    [open_source] raises nothing of its own: it passes on what the
    driver's [Open] gives.  When the driver reports the failure by
    returning [None], the scope is entered with an absent handle, and
    leaving it normally ends in the [AttributeError] of
    [None.FlushCache()]; when the driver raises, its [RuntimeError]
    goes on and the scope is not entered. *)
Theorem open_source_unopenable w :
  lookup source_path (stores w) = None ->
  if use_exceptions w
  then exists msg,
      with_ (open_source source_path update_enabled) body w
      = (Raise (RuntimeError msg), w)
  else cm_enter (open_source source_path update_enabled) w
       = (Ret (None, None), w)
       /\ with_ (open_source source_path update_enabled) body w
          = match body None w with
            | (Ret _, w2) =>
                (Raise (AttributeError
                   "'NoneType' object has no attribute 'FlushCache'"), w2)
            | (Raise e, w2) => (Raise e, w2)
            end.
Proof.
  intros H.
  unfold with_, cm_enter; simpl.
  unfold bind at 1 2 3; unfold ogr_Open; rewrite H.
  destruct (use_exceptions w).
  - eexists; reflexivity.
  - split; [reflexivity|].
    simpl; destruct (body None w) as [[a | e] w2]; reflexivity.
Qed.

End SourceHandle.



Lemma open_source_unopenable_witness :
  lookup "/data/missing.gpkg" (stores Sample.scenario_A) = None
  /\ cm_enter (open_source "/data/missing.gpkg" 0) Sample.scenario_A
     = (Ret (None, None), Sample.scenario_A).
Proof.
  split; [reflexivity|].
  apply (@open_source_unopenable unit "/data/missing.gpkg" 0%Z
           (fun _ => ret tt) Sample.scenario_A).
  reflexivity.
Defined.

(** C3 as stated fails: a missing file makes [open_source] yield an
    absent handle, with no exception at all. *)
Lemma open_source_yields_absent_handle :
  ~ unopenable_raises "/data/missing.gpkg" 0 Sample.scenario_A.
Proof.
  intros H; destruct (H eq_refl) as (e & He); discriminate He.
Qed.


(* ================================================================== *)
(** ** Copying one layer *)

Lemma GetLayerByName_run (h : Handle) (nm : string) (w : World) :
  GetLayerByName (Some h) nm w
  = (Ret (find (fun l => String.eqb (GetName l) nm) (store_layers w (h_loc h))), w).
Proof. reflexivity. Qed.

Lemma absent_not_found (w : World) (loc nm : string) :
  present w loc nm = false ->
  find (fun l => String.eqb (GetName l) nm) (store_layers w loc) = None.
Proof.
  unfold present; rewrite <- find_existsb.
  destruct (find _ _); [discriminate | reflexivity].
Qed.

(** What [ogr.Open] does, by whether the location can be reached. *)
Lemma ogr_Open_cases (path : string) (update_enabled : Z) (w : World) :
  (exists h, h_loc h = path
             /\ ogr_Open path update_enabled w = (Ret (Some h), opened h w))
  \/ (lookup path (stores w) = None /\ use_exceptions w = false
      /\ ogr_Open path update_enabled w = (Ret None, w))
  \/ (lookup path (stores w) = None /\ use_exceptions w = true
      /\ exists msg, ogr_Open path update_enabled w = (Raise (RuntimeError msg), w)).
Proof.
  unfold ogr_Open.
  destruct (lookup path (stores w)) as [ls|].
  - left; eexists; split; [|reflexivity]; reflexivity.
  - destruct (use_exceptions w).
    + right; right; repeat split; eexists; reflexivity.
    + right; left; repeat split.
Qed.

Section LayerCopier.

Variables (self : OSGEOManager) (h : Handle) (layername : string).
Variables (overwrite temporary launder : bool) (new_name : option string).
Hypothesis Hsrc : source self = Some h.

Lemma assert_stops (dest : option Handle) (w : World) :
  present w (h_loc h) layername = false ->
  copy_steps self layername overwrite temporary launder new_name dest w
  = (Raise AssertionError, w).
Proof.
  intros Habs; unfold copy_steps, bind.
  rewrite Hsrc, GetLayerByName_run, (absent_not_found _ _ _ Habs).
  reflexivity.
Qed.

(** C4, as the code has it.  For every layer name that the manager's
    source does not hold, [layer_to_postgis] fails and leaves every
    store as it was.  The exception is the [AssertionError] of the
    [assert layer] guard, or the driver's [RuntimeError] when the
    destination cannot be opened and the driver raises; it is never
    one of the repository's layer-not-found exceptions. *)
Theorem layer_to_postgis_missing_layer (connectionString : string) (w : World) :
  present w (h_loc h) layername = false ->
  exists e w',
    layer_to_postgis self layername connectionString
                     overwrite temporary launder new_name w = (Raise e, w')
    /\ stores w' = stores w
    /\ LayerNotFoundError e = false
    /\ match lookup connectionString (stores w) with
       | None => if use_exceptions w
                 then exists msg, e = RuntimeError msg
                 else e = AssertionError
       | Some _ => e = AssertionError
       end.
Proof.
  intros Habs.
  unfold layer_to_postgis.
  destruct (ogr_Open_cases connectionString 0 w)
    as [(h' & Hloc & E) | [(Hl & Hu & E) | (Hl & Hu & msg & E)]].
  - erewrite with_opened by exact E.
    rewrite assert_stops by exact Habs.
    do 2 eexists; repeat split.
    unfold ogr_Open in E.
    destruct (lookup connectionString (stores w)); [reflexivity|].
    destruct (use_exceptions w); discriminate E.
  - erewrite with_absent by exact E.
    rewrite assert_stops by exact Habs.
    do 2 eexists; repeat split.
    rewrite Hl, Hu; reflexivity.
  - erewrite with_refused by exact E.
    do 2 eexists; repeat split.
    rewrite Hl, Hu; eexists; reflexivity.
Qed.

End LayerCopier.

Lemma layer_to_postgis_missing_layer_witness :
  source Sample.manager = Some (mkHandle 7 Sample.package 0)
  /\ present (Sample.with_package Sample.scenario_A) Sample.package "lakes" = false
  /\ exists e w',
    layer_to_postgis Sample.manager "lakes" Sample.conn true false false None
                     (Sample.with_package Sample.scenario_A) = (Raise e, w')
    /\ stores w' = stores (Sample.with_package Sample.scenario_A)
    /\ LayerNotFoundError e = false
    /\ e = AssertionError.
Proof.
  split; [reflexivity|]; split; [reflexivity|].
  apply (@layer_to_postgis_missing_layer Sample.manager
           (mkHandle 7 Sample.package 0) "lakes" true false false None
           eq_refl Sample.conn (Sample.with_package Sample.scenario_A)).
  reflexivity.
Defined.

(** C4 as stated fails: the copy of a layer that is not there ends in
    an [AssertionError], which is not a layer-not-found exception. *)
Lemma layer_to_postgis_raises_AssertionError :
  ~ missing_layer_raises_LayerNotFoundError Sample.manager "lakes" Sample.conn
      (Sample.with_package Sample.scenario_A).
Proof.
  intros H.
  destruct (H (mkHandle 7 Sample.package 0) eq_refl eq_refl) as (e & w' & R & L & _).
  vm_compute in R; injection R as <- _.
  discriminate L.
Qed.

(* ================================================================== *)
(** ** The backup orchestrator: control flow *)

Section BackupOrchestrator.

Variables STYLES_TABLE DOWNLOADS_DIR_PATH : string.
Variable bool_DataSource : list OgrLayer -> bool.

Local Abbreviation backup :=
  (backup_portal STYLES_TABLE DOWNLOADS_DIR_PATH bool_DataSource).
Local Abbreviation protected := (backup_protected STYLES_TABLE bool_DataSource).
Local Abbreviation try_block := (backup_try STYLES_TABLE bool_DataSource).
Local Abbreviation resolve := (resolve_destination DOWNLOADS_DIR_PATH).

Lemma resolve_given (d : string) (w : World) :
  PyStr.truthy d = true -> resolve (Some d) w = (Ret d, w).
Proof. unfold resolve_destination; now intros ->. Qed.

(** [backup_portal] is its first lines followed by the [try]
    statement. *)
Lemma backup_portal_unfold (dest : option string) (w : World) :
  backup dest w
  = match resolve dest w with
    | (Ret d, w0) => protected d (archive_path d w0) (live_connection w0) w0
    | (Raise e, w0) => (Raise e, w0)
    end.
Proof.
  unfold backup_portal, bind at 1.
  destruct (resolve dest w) as [[d | e] w0]; reflexivity.
Qed.

(** What the [try] statement makes of its block. *)
Lemma backup_protected_run (d pkg conn : string) (w : World) :
  protected d pkg conn w
  = match try_block d pkg conn w with
    | (Ret _, w1) => (Ret (Some d), w1)
    | (Raise e, w1) =>
        (Ret None, if isinstance_Exception e then add_log e w1 else w1)
    end.
Proof.
  unfold backup_protected, finally_return, try_except_Exception.
  unfold bind at 1.
  destruct (try_block d pkg conn w) as [[[] | e] w1]; [reflexivity|].
  destruct (isinstance_Exception e); reflexivity.
Qed.

(** C6, as the code has it.  No exception raised inside the [try]
    block (the destination check and steps 2 to 5) reaches the
    caller, and the result is then absent.  An exception that is an
    instance of [Exception] is logged; any other ([KeyboardInterrupt],
    [SystemExit]) is dropped by the [return] in [finally] without a
    log entry.  Only the allocation of a destination, before the
    [try], can raise to the caller. *)
Theorem backup_portal_swallows (dest : option string) (w : World) :
  backup dest w
  = match resolve dest w with
    | (Raise e, w0) => (Raise e, w0)
    | (Ret d, w0) =>
        match try_block d (archive_path d w0) (live_connection w0) w0 with
        | (Ret _, w1) => (Ret (Some d), w1)
        | (Raise e, w1) =>
            (Ret None, if isinstance_Exception e then add_log e w1 else w1)
        end
    end.
Proof.
  rewrite backup_portal_unfold.
  destruct (resolve dest w) as [[d | e] w0]; [|reflexivity].
  apply backup_protected_run.
Qed.

(** The destination check at the head of the [try] block. *)
Lemma try_block_unwritable (d pkg conn : string) (w : World) :
  lookup d (dirs w) <> Some true ->
  try_block d pkg conn w
  = (Raise (Exception "maybe destination is not writable or not a directory"), w).
Proof.
  intros H; unfold backup_try, os_path_isdir, os_access_W_OK.
  unfold bind at 1; unfold gets at 1.
  destruct (lookup d (dirs w)) as [[|]|] eqn:E.
  - now elim H.
  - unfold bind at 1; unfold gets at 1; rewrite E; reflexivity.
  - reflexivity.
Qed.

Lemma try_block_writable (d pkg conn : string) (w : World) :
  lookup d (dirs w) = Some true ->
  try_block d pkg conn w
  = with_ (open_source conn 0)
          (backup_steps STYLES_TABLE bool_DataSource pkg conn) w.
Proof.
  intros H; unfold backup_try, os_path_isdir, os_access_W_OK.
  unfold bind at 1; unfold gets at 1; rewrite H.
  unfold bind at 1; unfold gets at 1; rewrite H.
  reflexivity.
Qed.

(** C7, as the code has it.  For every backup run whose given
    destination is not empty and is not a writable directory, the
    orchestrator returns an absent result and creates no file: the
    stores, the directories and the driver trace are as before, and
    the refusal is logged. *)
Theorem backup_portal_unwritable_destination (d : string) (w : World) :
  PyStr.truthy d = true ->
  lookup d (dirs w) <> Some true ->
  exists w',
    backup (Some d) w = (Ret None, w')
    /\ stores w' = stores w
    /\ dirs w' = dirs w
    /\ trace w' = trace w
    /\ log w' = log w
                ++ [Exception "maybe destination is not writable or not a directory"].
Proof.
  intros Hd Hw.
  rewrite backup_portal_unfold, resolve_given by exact Hd.
  rewrite backup_protected_run, try_block_unwritable by exact Hw; simpl.
  eexists; repeat split.
Qed.

Lemma length_append (s1 s2 : string) :
  String.length (s1 ++ s2)%string = String.length s1 + String.length s2.
Proof. induction s1 as [|c r IH]; simpl; [reflexivity | now rewrite IH]. Qed.

(** The archive lies below its directory: the two paths differ. *)
Lemma archive_path_differs (d : string) (w : World) : d <> archive_path d w.
Proof.
  unfold archive_path, os_path_join; simpl.
  destruct (String.eqb d "" || PyStr.endswith d "/")%bool;
    intros E; apply (f_equal String.length) in E;
    rewrite !length_append in E; simpl in E; lia.
Qed.

End BackupOrchestrator.

(* ================================================================== *)
(** ** Paths of archives *)

Section ArchivePaths.

Lemma string_app_assoc (a b c : string) :
  ((a ++ b) ++ c)%string = (a ++ b ++ c)%string.
Proof. induction a as [|x a IH]; simpl; [reflexivity | now rewrite IH]. Qed.

Lemma substring_all (s : string) : substring 0 (String.length s) s = s.
Proof. induction s as [|c s IH]; simpl; [reflexivity | now rewrite IH]. Qed.

Lemma substring_after (a b : string) :
  substring (String.length a) (String.length b) (a ++ b) = b.
Proof. induction a as [|x a IH]; simpl; [apply substring_all | exact IH]. Qed.

(** A string ends with what was appended to it. *)
Lemma endswith_append (a b : string) : PyStr.endswith (a ++ b) b = true.
Proof.
  unfold PyStr.endswith; rewrite length_append.
  replace (String.length a + String.length b - String.length b)
    with (String.length a) by lia.
  rewrite substring_after, String.eqb_refl, andb_true_r.
  apply Nat.leb_le; lia.
Qed.

Lemma gpkg_path_ends (dest_path : string) :
  PyStr.endswith (gpkg_path dest_path) ".gpkg" = true.
Proof.
  unfold gpkg_path.
  destruct (PyStr.endswith dest_path ".gpkg") eqn:E; simpl;
    [exact E | apply endswith_append].
Qed.

Lemma gpkg_path_kept (dest_path : string) :
  PyStr.endswith dest_path ".gpkg" = true -> gpkg_path dest_path = dest_path.
Proof. intros E; unfold gpkg_path; now rewrite E. Qed.

(** The path [postgis_as_gpkg] writes to always ends in [.gpkg]; a
    path that has the suffix is kept as it is, so that adding the
    suffix twice changes nothing. *)
Theorem gpkg_path_suffix (dest_path : string) :
  PyStr.endswith (gpkg_path dest_path) ".gpkg" = true
  /\ gpkg_path (gpkg_path dest_path) = gpkg_path dest_path
  /\ (PyStr.endswith dest_path ".gpkg" = true -> gpkg_path dest_path = dest_path).
Proof.
  split; [apply gpkg_path_ends|]; split.
  - apply gpkg_path_kept, gpkg_path_ends.
  - apply gpkg_path_kept.
Qed.

Lemma archive_path_ends (dest_path : string) (w : World) :
  PyStr.endswith (archive_path dest_path w) ".gpkg" = true.
Proof.
  unfold archive_path, os_path_join.
  set (t := format_time (clock w)).
  assert (E : forall d, (d ++ "backup_" ++ t ++ ".gpkg")%string
                        = ((d ++ "backup_" ++ t) ++ ".gpkg")%string)
    by (intros d; now rewrite !string_app_assoc).
  change (String.prefix "/" ("backup_" ++ t ++ ".gpkg")) with false.
  cbv iota.
  destruct (String.eqb dest_path "" || PyStr.endswith dest_path "/")%bool.
  - rewrite E; apply endswith_append.
  - rewrite (E "/"), <- string_app_assoc; apply endswith_append.
Qed.

(** The archive path that [backup_portal] builds already ends in
    [.gpkg]: [postgis_as_gpkg] writes to that very path, the one the
    style manager is given afterwards. *)
Theorem archive_path_is_gpkg_path (dest_path : string) (w : World) :
  gpkg_path (archive_path dest_path w) = archive_path dest_path w.
Proof. apply gpkg_path_kept, archive_path_ends. Qed.

End ArchivePaths.

(* ================================================================== *)
(** ** The backup orchestrator: what is copied *)

Lemma copies_app (t1 t2 : list Event) : copies (t1 ++ t2) = copies t1 ++ copies t2.
Proof.
  induction t1 as [|ev r IH]; simpl; [reflexivity|].
  destruct ev; simpl; now rewrite IH.
Qed.

Lemma creations_app (t1 t2 : list Event) :
  creations (t1 ++ t2) = creations t1 ++ creations t2.
Proof.
  induction t1 as [|ev r IH]; simpl; [reflexivity|].
  destruct ev; simpl; now rewrite IH.
Qed.

Lemma lookup_app_found {V} (k : string) (l l' : list (string * V)) (v : V) :
  lookup k l = Some v -> lookup k (l ++ l') = Some v.
Proof.
  induction l as [|[k' v'] r IH]; simpl; [discriminate|].
  destruct (String.eqb k k'); auto.
Qed.

Lemma for_each_inv {X} (body : X -> M unit) (x : X) (r : list X) w w' :
  for_each (x :: r) body w = (Ret tt, w') ->
  exists w1, body x w = (Ret tt, w1) /\ for_each r body w1 = (Ret tt, w').
Proof.
  simpl; intros H; apply bind_inv in H as ([] & w1 & H1 & H2); eauto.
Qed.

(** A loop whose body leaves the trace alone leaves it alone. *)
Lemma for_each_trace {X} (body : X -> M unit) (l : list X) :
  (forall x w, trace (snd (body x w)) = trace w) ->
  forall w, trace (snd (for_each l body w)) = trace w.
Proof.
  intros Hb; induction l as [|x r IH]; intros w; simpl; [reflexivity|].
  unfold bind; specialize (Hb x w).
  destruct (body x w) as [[[] | e] w1]; simpl in *; [|assumption].
  now rewrite IH.
Qed.

Section Selection.

Variable h : Handle.

(** One turn of the selection loop reads the world and extends the
    list of names by the table name when the source holds it. *)
Lemma select_layer_run (acc : list style_row * list string)
  (layer : CatalogLayer) (w : World) :
  exists r, select_layer (Some h) acc layer w = (r, w)
    /\ forall styles names, r = Ret (styles, names) ->
         names = snd acc ++ filter (present w (h_loc h)) [table_name layer].
Proof.
  destruct acc as [layer_styles table_names].
  unfold select_layer, bind at 1.
  rewrite source_layer_exists_run; simpl.
  destruct (present w (h_loc h) (table_name layer)).
  - unfold bind, deref, get_sld_body, ret, raise.
    destruct (gml_attribute layer) as [g|];
      [|eexists; split; [reflexivity | discriminate]].
    destruct (default_style layer) as [s|];
      [|eexists; split; [reflexivity | discriminate]].
    destruct (sld_body w (sld_url s)) as [b|e];
      [|eexists; split; [reflexivity | discriminate]].
    eexists; split; [reflexivity|].
    intros styles names H; now injection H as _ <-.
  - eexists; split; [reflexivity|].
    intros styles names H; injection H as _ <-.
    now rewrite app_nil_r.
Qed.

Lemma select_layers_run (all_layers : list CatalogLayer) :
  forall (acc : list style_row * list string) (w : World),
  exists r, select_layers (Some h) acc all_layers w = (r, w)
    /\ forall styles names, r = Ret (styles, names) ->
         names = snd acc
                 ++ filter (present w (h_loc h)) (map table_name all_layers).
Proof.
  induction all_layers as [|layer rest IH]; intros acc w; simpl.
  - eexists; split; [reflexivity|].
    intros styles names H; injection H as H; subst acc; simpl.
    now rewrite app_nil_r.
  - destruct (select_layer_run acc layer w) as (r1 & E1 & H1).
    unfold bind; rewrite E1.
    destruct r1 as [[styles1 names1] | e].
    + destruct (IH (styles1, names1) w) as (r & E & H).
      exists r; split; [assumption|].
      intros styles names Hr.
      rewrite (H _ _ Hr); simpl.
      rewrite (H1 _ _ eq_refl); simpl.
      destruct (present w (h_loc h) (table_name layer)); simpl;
        now rewrite <- app_assoc.
    + eexists; split; [reflexivity | discriminate].
Qed.

End Selection.

Lemma CopyLayer_inv (ds : option Handle) (layer : OgrLayer) (nm : string)
  (copy : OgrLayer) (w w' : World) :
  CopyLayer ds layer nm w = (Ret copy, w') ->
  exists hd, ds = Some hd
    /\ trace w' = trace w ++ [EvCopyLayer (h_loc hd) nm].
Proof.
  unfold CopyLayer, deref.
  destruct ds as [hd|]; [|discriminate].
  unfold bind, ret, external, modify.
  destruct (fault w (Op_CopyLayer nm)); [discriminate|].
  intros H; injection H as _ <-.
  exists hd; split; reflexivity.
Qed.

(** The copying loop of [postgis_as_gpkg] (lines 135-136), when it
    runs to its end, asked for one copy per layer, in order. *)
Lemma copy_loop_copies (ds : option Handle) (dest : string) (layers : list GpkgLayer) :
  (forall hd, ds = Some hd -> h_loc hd = dest) ->
  forall w w',
    for_each layers (fun lyr => CopyLayer ds (gpkg_layer lyr) (name lyr) ;; ret tt) w
    = (Ret tt, w') ->
    copies (trace w') = copies (trace w) ++ map (fun l => (dest, name l)) layers.
Proof.
  intros Hds; induction layers as [|l r IH]; intros w w' H.
  - simpl in H; injection H as <-; simpl; now rewrite app_nil_r.
  - apply for_each_inv in H as (w1 & H1 & H2).
    apply bind_inv in H1 as (copy & w1' & H1 & E).
    injection E as <-.
    apply CopyLayer_inv in H1 as (hd & Ehd & Htr).
    rewrite (IH _ _ H2), Htr, copies_app; simpl.
    rewrite (Hds _ Ehd), <- app_assoc; reflexivity.
Qed.

Lemma CreateDataSource_inv (p : string) (ds : option Handle) (w w' : World) :
  CreateDataSource p w = (Ret ds, w') ->
  (forall hd, ds = Some hd -> h_loc hd = p)
  /\ copies (trace w') = copies (trace w)
  /\ (forall loc ls, lookup loc (stores w) = Some ls ->
                     lookup loc (stores w') = Some ls).
Proof.
  unfold CreateDataSource, external, bind.
  destruct (fault w (Op_CreateDataSource p)); [discriminate|].
  destruct (lookup p (stores w)).
  - destruct (use_exceptions w); [discriminate|].
    intros H; injection H as <- <-.
    repeat split; [discriminate | auto].
  - intros H; injection H as <- <-.
    repeat split.
    + intros hd E; now injection E as <-.
    + simpl; rewrite copies_app; simpl; now rewrite app_nil_r.
    + intros loc ls; simpl; apply lookup_app_found.
Qed.

(** At a path where nothing is stored, a call that returns has
    created the file. *)
Lemma CreateDataSource_created (p : string) (ds : option Handle) (w w' : World) :
  CreateDataSource p w = (Ret ds, w') ->
  lookup p (stores w) = None ->
  creations (trace w') = creations (trace w) ++ [p].
Proof.
  unfold CreateDataSource, external, bind.
  destruct (fault w (Op_CreateDataSource p)); [discriminate|].
  intros H Hn; rewrite Hn in H; injection H as _ <-.
  simpl; now rewrite creations_app.
Qed.

(** The copying loop creates no file. *)
Lemma copy_loop_creations (ds : option Handle) (layers : list GpkgLayer) :
  forall w w',
    for_each layers (fun lyr => CopyLayer ds (gpkg_layer lyr) (name lyr) ;; ret tt) w
    = (Ret tt, w') ->
    creations (trace w') = creations (trace w).
Proof.
  induction layers as [|l r IH]; intros w w' H.
  - simpl in H; now injection H as <-.
  - apply for_each_inv in H as (w1 & H1 & H2).
    apply bind_inv in H1 as (copy & w1' & H1 & E).
    injection E as <-.
    apply CopyLayer_inv in H1 as (hd & _ & Htr).
    rewrite (IH _ _ H2), Htr, creations_app; simpl.
    now rewrite app_nil_r.
Qed.

Section Archive.

Variable STYLES_TABLE : string.

Lemma opened_inv (p : string) (u : Z) (w : World) (hd : Handle) (w1 : World) :
  ogr_Open p u w = (Ret (Some hd), w1) ->
  h_loc hd = p /\ w1 = opened hd w /\ exists ls, lookup p (stores w) = Some ls.
Proof.
  unfold ogr_Open; destruct (lookup p (stores w)) as [ls|].
  - intros H; injection H as <- <-; repeat split; now exists ls.
  - destruct (use_exceptions w); discriminate.
Qed.

(** A scope that returns was entered with a handle, and left by the
    normal exit. *)
Lemma with_inv {X} (p : string) (u : Z) (body : option Handle -> M X)
  (w : World) (x : X) (w' : World) :
  with_ (open_source p u) body w = (Ret x, w') ->
  exists hd w2,
    ogr_Open p u w = (Ret (Some hd), opened hd w)
    /\ h_loc hd = p
    /\ (exists ls, lookup p (stores w) = Some ls)
    /\ body (Some hd) (opened hd w) = (Ret x, w2)
    /\ w' = add_event (EvRelease hd) (add_event (EvFlushCache hd) w2).
Proof.
  intros H.
  destruct (ogr_Open p u w) as [[[hd|] | e] w1] eqn:E.
  - destruct (opened_inv _ _ _ E) as (Hloc & -> & Hls).
    erewrite with_opened in H by exact E.
    destruct (body (Some hd) (opened hd w)) as [[x' | e] w2] eqn:B;
      [|discriminate].
    injection H as -> <-.
    exists hd, w2; repeat split; assumption.
  - erewrite with_absent in H by exact E.
    destruct (body None w1) as [[x' | e] w2]; discriminate.
  - erewrite with_refused in H by exact E; discriminate.
Qed.

Lemma filter_names (names : list string) (src : option Handle) (ls : list OgrLayer) :
  map name (filter (fun layer => existsb (String.eqb (name layer)) names)
                   (map (fun l => mkGpkgLayer l src) ls))
  = filter (fun nm => existsb (String.eqb nm) names) (map GetName ls).
Proof.
  unfold name; induction ls as [|l r IH]; simpl; [reflexivity|].
  destruct (existsb (String.eqb (GetName l)) names); simpl; now rewrite IH.
Qed.

(** [postgis_as_gpkg], when it returns, asked for the copy of each
    expected layer into the archive, in native order, and of nothing
    else. *)
Lemma postgis_as_gpkg_copies (conn pkg : string) (names : list string)
  (w : World) (p : string) (w' : World) :
  postgis_as_gpkg STYLES_TABLE conn pkg (Some names) w = (Ret p, w') ->
  copies (trace w')
  = copies (trace w)
    ++ map (fun nm => (gpkg_path pkg, nm)) (expected_copies STYLES_TABLE names w conn).
Proof.
  unfold postgis_as_gpkg; intros H.
  apply bind_inv in H as ([] & w3 & H & R); injection R as _ <-.
  apply with_inv in H as (hd & w2 & _ & Hloc & (ls & Hls) & B & ->).
  apply bind_inv in B as (ds & w1 & C & B).
  apply CreateDataSource_inv in C as (Hds & Hc & Hst).
  assert (Hl : store_layers w1 (h_loc hd) = store_layers w conn).
  { unfold store_layers; rewrite Hloc.
    rewrite (Hst conn ls) by exact Hls; now rewrite Hls. }
  assert (Hgl : get_source_layers STYLES_TABLE (Some hd) w1
                = (Ret (map (fun l => mkGpkgLayer l (Some hd))
                          (filter (fun l => negb (String.eqb (GetName l) STYLES_TABLE))
                                  (store_layers w conn))), w1)).
  { rewrite get_source_layers_run, Hl; reflexivity. }
  apply bind_inv in B as (layers & w1' & L & B).
  apply (copy_loop_copies _ Hds) in B.
  simpl; rewrite !copies_app; simpl; rewrite !app_nil_r.
  rewrite B.
  assert (Hw1 : w1' = w1 /\ map name layers = expected_copies STYLES_TABLE names w conn).
  { destruct names as [|n ns].
    - rewrite Hgl in L; injection L as <- <-; split; [reflexivity|].
      now rewrite names_of_views.
    - unfold bind in L; rewrite Hgl in L; injection L as <- <-.
      split; [reflexivity|].
      unfold expected_copies, listed_names.
      exact (@filter_names (n :: ns) (Some hd) _). }
  destruct Hw1 as [-> <-].
  rewrite Hc; simpl; rewrite copies_app; simpl; rewrite app_nil_r.
  now rewrite map_map.
Qed.

(** [postgis_as_gpkg], when it returns and nothing was stored at its
    destination, has created the destination, and no other file. *)
Lemma postgis_as_gpkg_creates (conn pkg : string) (names : option (list string))
  (w : World) (p : string) (w' : World) :
  postgis_as_gpkg STYLES_TABLE conn pkg names w = (Ret p, w') ->
  lookup (gpkg_path pkg) (stores w) = None ->
  creations (trace w') = creations (trace w) ++ [gpkg_path pkg].
Proof.
  unfold postgis_as_gpkg; intros H Hn.
  apply bind_inv in H as ([] & w3 & H & R); injection R as _ <-.
  apply with_inv in H as (hd & w2 & _ & _ & _ & B & ->).
  apply bind_inv in B as (ds & w1 & C & B).
  apply CreateDataSource_created in C; [| exact Hn].
  apply bind_inv in B as (layers & w1' & L & B).
  assert (E : w1' = w1).
  { destruct names as [[|n ns]|].
    - rewrite get_source_layers_run in L; now injection L as _ <-.
    - unfold bind in L; rewrite get_source_layers_run in L.
      now injection L as _ <-.
    - rewrite get_source_layers_run in L; now injection L as _ <-. }
  subst w1'.
  apply copy_loop_creations in B.
  simpl; rewrite !creations_app; simpl; rewrite !app_nil_r.
  rewrite B, C; simpl; rewrite creations_app; simpl.
  now rewrite app_nil_r.
Qed.

End Archive.

Section BackupCopies.

Variables STYLES_TABLE DOWNLOADS_DIR_PATH : string.
Variable bool_DataSource : list OgrLayer -> bool.

Lemma create_table_trace (p : string) (w : World) :
  trace (snd (create_table STYLES_TABLE p w)) = trace w.
Proof.
  unfold create_table, external, bind.
  destruct (fault w (Op_create_table p)); [reflexivity|].
  destruct (lookup p (stores w)) as [ls|]; [|reflexivity].
  destruct (existsb _ ls); reflexivity.
Qed.

Lemma add_style_trace (p : string) (style : style_row) (b : bool) (w : World) :
  trace (snd (add_style STYLES_TABLE p style b w)) = trace w.
Proof.
  destruct style as [[[n g] s] body].
  unfold add_style, external, bind.
  destruct (fault w (Op_add_style n)); [reflexivity|].
  destruct (lookup p (stores w)); reflexivity.
Qed.

(** Steps 3 to 5, when they run to their end on a source that tests
    true, asked for the copies [postgis_as_gpkg] makes of the
    selected names. *)
Lemma backup_steps_copies (pkg conn : string) (hd : Handle) (w w' : World) :
  h_loc hd = conn ->
  backup_steps STYLES_TABLE bool_DataSource pkg conn (Some hd) w = (Ret tt, w') ->
  bool_DataSource (store_layers w conn) = true ->
  copies (trace w')
  = copies (trace w)
    ++ map (fun nm => (gpkg_path pkg, nm))
           (expected_copies STYLES_TABLE (selected_names w conn) w conn).
Proof.
  intros Hloc H Ht; unfold backup_steps in H.
  apply bind_inv in H as (t & w0 & E & H).
  unfold truth, gets in E; rewrite Hloc, Ht in E; injection E as <- <-.
  apply bind_inv in H as (all_layers & w0 & E & H).
  assert (Ec : all_layers = catalog w /\ w0 = w).
  { unfold Layer_objects_all, external, bind, gets in E.
    destruct (fault w Op_Layer_objects_all); [discriminate|].
    now injection E as <- <-. }
  destruct Ec as [-> ->]; clear E.
  apply bind_inv in H as ([layer_styles table_names] & w0 & E & H).
  destruct (select_layers_run hd (catalog w) ([], []) w) as (r & Er & Hr).
  rewrite Er in E; injection E as -> <-.
  specialize (Hr _ _ eq_refl); simpl in Hr; rewrite Hloc in Hr.
  fold (selected_names w conn) in Hr; subst table_names.
  apply bind_inv in H as (p & w1 & P & H).
  apply postgis_as_gpkg_copies in P.
  apply bind_inv in H as ([] & w2 & C & H).
  pose proof (create_table_trace pkg w1) as T1; rewrite C in T1; simpl in T1.
  pose proof (for_each_trace
                (fun style => add_style STYLES_TABLE pkg style true)
                layer_styles
                (fun x w => add_style_trace pkg x true w) w2) as T2.
  rewrite H in T2; simpl in T2.
  now rewrite T2, T1.
Qed.

Lemma backup_try_copies (d pkg conn : string) (w w' : World) :
  backup_try STYLES_TABLE bool_DataSource d pkg conn w = (Ret tt, w') ->
  bool_DataSource (store_layers w conn) = true ->
  copies (trace w')
  = copies (trace w)
    ++ map (fun nm => (gpkg_path pkg, nm))
           (expected_copies STYLES_TABLE (selected_names w conn) w conn).
Proof.
  intros H Ht.
  destruct (lookup d (dirs w)) as [[|]|] eqn:E.
  2,3: erewrite try_block_unwritable in H
         by (rewrite E; discriminate); discriminate.
  erewrite try_block_writable in H by exact E.
  apply with_inv in H as (hd & w2 & _ & Hloc & _ & B & ->).
  apply backup_steps_copies in B; [| assumption | exact Ht].
  simpl; rewrite !copies_app; simpl; rewrite !app_nil_r.
  rewrite B; simpl; rewrite copies_app; simpl; rewrite app_nil_r.
  reflexivity.
Qed.

(** A name is among the listed names picked by a selection iff it is
    selected and is not the reserved name. *)
Lemma picked_iff_selected (w : World) (conn nm : string) :
  In nm (filter (fun n => existsb (String.eqb n) (selected_names w conn))
                (listed_names STYLES_TABLE w conn))
  <-> In nm (selected_names w conn) /\ nm <> STYLES_TABLE.
Proof.
  rewrite filter_In, existsb_exists; split.
  - intros (Hl & n & Hn & E); apply String.eqb_eq in E; subst n.
    split; [assumption|].
    intros ->; now apply (reserved_never_listed STYLES_TABLE w conn).
  - intros (Hs & Hn); split.
    + unfold selected_names in Hs; apply filter_In in Hs as [_ Hp].
      unfold present in Hp; apply existsb_exists in Hp as (l & Hl & E).
      apply String.eqb_eq in E; subst nm.
      unfold listed_names; apply in_map, filter_In; split; [assumption|].
      now apply negb_true_iff, String.eqb_neq.
    + exists nm; split; [assumption | apply String.eqb_refl].
Qed.

Lemma resolve_keeps (dest : option string) (w : World) (d : string) (w0 : World) :
  resolve_destination DOWNLOADS_DIR_PATH dest w = (Ret d, w0) ->
  stores w0 = stores w /\ catalog w0 = catalog w /\ trace w0 = trace w
  /\ clock w0 = clock w /\ datastore_db w0 = datastore_db w.
Proof.
  assert (G : get_new_dir DOWNLOADS_DIR_PATH w = (Ret d, w0) ->
              stores w0 = stores w /\ catalog w0 = catalog w /\ trace w0 = trace w
              /\ clock w0 = clock w /\ datastore_db w0 = datastore_db w).
  { unfold get_new_dir, external, bind, gets, modify, ret.
    destruct (fault w Op_get_new_dir); [discriminate|].
    intros H; injection H as _ <-; repeat split. }
  unfold resolve_destination.
  destruct dest as [d'|]; [destruct (PyStr.truthy d')|]; try exact G.
  unfold ret; intros H; injection H as _ <-; repeat split.
Qed.

(** On a source that tests false the body of the scope does nothing. *)
Lemma backup_steps_false (pkg conn : string) (h : Handle) (w : World) :
  h_loc h = conn ->
  bool_DataSource (store_layers w conn) = false ->
  backup_steps STYLES_TABLE bool_DataSource pkg conn (Some h) w = (Ret tt, w).
Proof.
  intros Hloc Hb; unfold backup_steps, bind, truth, gets.
  now rewrite Hloc, Hb.
Qed.

(** Steps 3 to 5, when they run to their end on a source that tests
    true and nothing was stored at the archive path, have created the
    archive and no other file. *)
Lemma backup_steps_creations (pkg conn : string) (hd : Handle) (w w' : World) :
  h_loc hd = conn ->
  backup_steps STYLES_TABLE bool_DataSource pkg conn (Some hd) w = (Ret tt, w') ->
  bool_DataSource (store_layers w conn) = true ->
  lookup (gpkg_path pkg) (stores w) = None ->
  creations (trace w') = creations (trace w) ++ [gpkg_path pkg].
Proof.
  intros Hloc H Ht Hn; unfold backup_steps in H.
  apply bind_inv in H as (t & w0 & E & H).
  unfold truth, gets in E; rewrite Hloc, Ht in E; injection E as <- <-.
  apply bind_inv in H as (all_layers & w0 & E & H).
  assert (Ec : w0 = w).
  { unfold Layer_objects_all, external, bind, gets in E.
    destruct (fault w Op_Layer_objects_all); [discriminate|].
    now injection E as _ <-. }
  subst w0; clear E.
  apply bind_inv in H as ([layer_styles table_names] & w0 & E & H).
  destruct (select_layers_run hd all_layers ([], []) w) as (r & Er & _).
  rewrite Er in E; injection E as _ <-.
  apply bind_inv in H as (p & w1 & P & H).
  apply postgis_as_gpkg_creates in P; [| exact Hn].
  apply bind_inv in H as ([] & w2 & C & H).
  pose proof (create_table_trace pkg w1) as T1; rewrite C in T1; simpl in T1.
  pose proof (for_each_trace
                (fun style => add_style STYLES_TABLE pkg style true)
                layer_styles
                (fun x w => add_style_trace pkg x true w) w2) as T2.
  rewrite H in T2; simpl in T2.
  now rewrite T2, T1.
Qed.

(** What a [try] block that runs to its end has created. *)
Lemma backup_try_creations (d pkg conn : string) (w w' : World) :
  backup_try STYLES_TABLE bool_DataSource d pkg conn w = (Ret tt, w') ->
  if bool_DataSource (store_layers w conn)
  then lookup (gpkg_path pkg) (stores w) = None ->
       creations (trace w') = creations (trace w) ++ [gpkg_path pkg]
  else creations (trace w') = creations (trace w).
Proof.
  intros H.
  destruct (lookup d (dirs w)) as [[|]|] eqn:E.
  2,3: erewrite try_block_unwritable in H
         by (rewrite E; discriminate); discriminate.
  erewrite try_block_writable in H by exact E.
  apply with_inv in H as (hd & w2 & _ & Hloc & _ & B & ->).
  destruct (bool_DataSource (store_layers w conn)) eqn:Ht.
  - intros Hn.
    apply backup_steps_creations in B; [| assumption | exact Ht | exact Hn].
    simpl; rewrite !creations_app; simpl; rewrite !app_nil_r.
    rewrite B; simpl; rewrite creations_app; simpl.
    now rewrite app_nil_r.
  - rewrite backup_steps_false in B; [| assumption | exact Ht].
    injection B as <-.
    simpl; rewrite !creations_app; simpl; now rewrite !app_nil_r.
Qed.

(** C2, as the code has it.  For every backup run that completes
    successfully, [backup_portal] returns the destination directory:
    the one given, or the one allocated when none was given.  That
    is never the path of the archive, which lies below it.  When the
    opened source tests true and nothing was stored at the archive
    path, the run has created the archive at that path, and no other
    file; when the source tests false, it returns the directory
    although it has created nothing. *)
Theorem backup_portal_returns_destination
  (dest : option string) (w : World) (p : string) (w' : World) :
  backup_portal STYLES_TABLE DOWNLOADS_DIR_PATH bool_DataSource dest w
  = (Ret (Some p), w') ->
  (exists w0, resolve_destination DOWNLOADS_DIR_PATH dest w = (Ret p, w0))
  /\ p = match dest with
         | Some d => if PyStr.truthy d then d
                     else os_path_join DOWNLOADS_DIR_PATH (fresh_name w)
         | None => os_path_join DOWNLOADS_DIR_PATH (fresh_name w)
         end
  /\ p <> archive_path p w
  /\ if bool_DataSource (store_layers w (live_connection w))
     then lookup (archive_path p w) (stores w) = None ->
          creations (trace w') = creations (trace w) ++ [archive_path p w]
     else creations (trace w') = creations (trace w).
Proof.
  intros H; rewrite backup_portal_unfold in H.
  destruct (resolve_destination DOWNLOADS_DIR_PATH dest w)
    as [[d | e] w0] eqn:R; [|discriminate].
  rewrite backup_protected_run in H.
  destruct (backup_try _ _ d _ _ w0) as [[[] | e] w1] eqn:T; [|discriminate].
  injection H as -> ->.
  split; [exists w0; reflexivity|].
  split; [|split; [apply archive_path_differs|]].
  - revert R; unfold resolve_destination, get_new_dir, external.
    assert (G : forall w0',
      (external Op_get_new_dir;;
       n <- gets fresh_name;;
       modify (fun w1 => set_dirs (update (os_path_join DOWNLOADS_DIR_PATH n) true (dirs w1)) w1);;
       ret (os_path_join DOWNLOADS_DIR_PATH n)) w = (Ret p, w0') ->
      p = os_path_join DOWNLOADS_DIR_PATH (fresh_name w)).
    { unfold external, bind, gets, modify, ret.
      destruct (fault w Op_get_new_dir); [discriminate|].
      intros w0' H; now injection H as <- _. }
    destruct dest as [d|]; [destruct (PyStr.truthy d)|].
    + unfold ret; intros H; now injection H.
    + apply G.
    + apply G.
  - destruct (resolve_keeps _ _ R) as (Hs & _ & Htr & Hk & Hdb).
    assert (Ea : archive_path p w0 = archive_path p w)
      by (unfold archive_path; now rewrite Hk).
    assert (El : live_connection w0 = live_connection w)
      by (unfold live_connection; now rewrite Hdb).
    apply backup_try_creations in T.
    rewrite Ea, El in T.
    rewrite (@gpkg_path_kept (archive_path p w) (archive_path_ends p w)) in T.
    unfold store_layers in T |- *; rewrite Hs, Htr in T.
    exact T.
Qed.

(** C5, as the code has it.  For every backup run that completes on
    a source that tests true, with a selection that is not empty, the
    layers copied into the archive are the layers of the source whose
    name is selected, the reserved style-table name left out, each
    once and in native order: a name is copied iff it is selected
    (registered in the catalog and present in the source) and is not
    the reserved name.  Registered layers absent from the source are
    skipped, and layers of the source that are not selected are not
    copied. *)
Theorem backup_copies_selected
  (dest : option string) (w : World) (p : string) (w' : World) :
  backup_portal STYLES_TABLE DOWNLOADS_DIR_PATH bool_DataSource dest w
  = (Ret (Some p), w') ->
  bool_DataSource (store_layers w (live_connection w)) = true ->
  selected_names w (live_connection w) <> [] ->
  exists copied,
    copies (trace w')
    = copies (trace w)
      ++ map (fun nm => (gpkg_path (archive_path p w), nm)) copied
    /\ copied
       = filter (fun n => existsb (String.eqb n)
                            (selected_names w (live_connection w)))
                (listed_names STYLES_TABLE w (live_connection w))
    /\ forall nm,
         In nm copied
         <-> In nm (selected_names w (live_connection w))
             /\ nm <> STYLES_TABLE.
Proof.
  intros H Ht Hsel.
  rewrite backup_portal_unfold in H.
  destruct (resolve_destination DOWNLOADS_DIR_PATH dest w)
    as [[d | e] w0] eqn:R; [|discriminate].
  rewrite backup_protected_run in H.
  destruct (resolve_keeps _ _ R) as (Hs & Hc & Htr & Hk & Hdb).
  assert (Ea : archive_path d w0 = archive_path d w)
    by (unfold archive_path; now rewrite Hk).
  assert (El : live_connection w0 = live_connection w)
    by (unfold live_connection; now rewrite Hdb).
  rewrite Ea, El in H.
  destruct (backup_try _ _ d _ _ w0) as [[[] | e] w1] eqn:T; [|discriminate].
  injection H as -> ->.
  assert (Esl : store_layers w0 (live_connection w)
                = store_layers w (live_connection w))
    by (unfold store_layers; now rewrite Hs).
  assert (Ese : selected_names w0 (live_connection w)
                = selected_names w (live_connection w))
    by (unfold selected_names, present, store_layers; now rewrite Hs, Hc).
  assert (Eli : listed_names STYLES_TABLE w0 (live_connection w)
                = listed_names STYLES_TABLE w (live_connection w))
    by (unfold listed_names, store_layers; now rewrite Hs).
  apply backup_try_copies in T; [| now rewrite Esl].
  rewrite Htr, Ese in T.
  eexists; split; [|split; [reflexivity|]].
  - rewrite T; f_equal; f_equal.
    unfold expected_copies; rewrite Eli.
    destruct (selected_names w (live_connection w)); [now elim Hsel | reflexivity].
  - intros nm; apply picked_iff_selected.
Qed.

End BackupCopies.

(* ================================================================== *)
(** ** The sample runs *)

Lemma backup_portal_unwritable_destination_witness :
  PyStr.truthy "/tmp/out" = true
  /\ lookup "/tmp/out" (dirs Sample.read_only_dest) <> Some true
  /\ exists w',
      Sample.backup (Some "/tmp/out") Sample.read_only_dest = (Ret None, w')
      /\ stores w' = stores Sample.read_only_dest
      /\ dirs w' = dirs Sample.read_only_dest
      /\ trace w' = trace Sample.read_only_dest
      /\ log w' = log Sample.read_only_dest
                  ++ [Exception "maybe destination is not writable or not a directory"].
Proof.
  split; [reflexivity|]; split; [discriminate|].
  apply (@backup_portal_unwritable_destination Sample.STYLES Sample.DOWNLOADS
           Sample.len_truth "/tmp/out" Sample.read_only_dest);
    [reflexivity | discriminate].
Defined.

(** C7 as stated fails for the empty destination, which is no
    directory: line 142 takes it for no destination, a directory is
    allocated, and the backup of scenario A goes ahead, creates an
    archive and returns a path. *)
Lemma backup_portal_empty_destination_allocates :
  ~ unwritable_creates_nothing Sample.STYLES Sample.DOWNLOADS Sample.len_truth
      "" Sample.scenario_A.
Proof.
  intros H.
  destruct H as (w' & R & _); [vm_compute; discriminate|].
  vm_compute in R; discriminate R.
Qed.

Lemma backup_portal_returns_destination_witness :
  Sample.backup (Some "/tmp/out") Sample.scenario_A
  = (Ret (Some "/tmp/out"), snd (Sample.backup (Some "/tmp/out") Sample.scenario_A))
  /\ (exists w0,
        resolve_destination Sample.DOWNLOADS (Some "/tmp/out") Sample.scenario_A
        = (Ret "/tmp/out", w0))
  /\ "/tmp/out" <> archive_path "/tmp/out" Sample.scenario_A
  /\ Sample.len_truth
       (store_layers Sample.scenario_A (live_connection Sample.scenario_A)) = true
  /\ lookup (archive_path "/tmp/out" Sample.scenario_A) (stores Sample.scenario_A)
     = None
  /\ creations (trace (snd (Sample.backup (Some "/tmp/out") Sample.scenario_A)))
     = creations (trace Sample.scenario_A)
       ++ [archive_path "/tmp/out" Sample.scenario_A].
Proof.
  assert (R : backup_portal Sample.STYLES Sample.DOWNLOADS Sample.len_truth
                (Some "/tmp/out") Sample.scenario_A
              = (Ret (Some "/tmp/out"),
                 snd (Sample.backup (Some "/tmp/out") Sample.scenario_A)))
    by (vm_compute; reflexivity).
  destruct (@backup_portal_returns_destination Sample.STYLES Sample.DOWNLOADS
              Sample.len_truth (Some "/tmp/out") Sample.scenario_A "/tmp/out"
              (snd (Sample.backup (Some "/tmp/out") Sample.scenario_A)) R)
    as (A & _ & C & D).
  split; [exact R|]; split; [exact A|]; split; [exact C|].
  split; [reflexivity|]; split; [reflexivity|].
  exact (D eq_refl).
Defined.

(** C2 as stated fails: the backup of scenario A into [/tmp/out]
    succeeds and returns [/tmp/out], not the path of the archive
    [/tmp/out/backup_2018_05_01-12_30_00.gpkg] it created. *)
Lemma backup_portal_returns_directory :
  ~ returns_archive_path Sample.STYLES Sample.DOWNLOADS Sample.len_truth
      "/tmp/out" Sample.scenario_A.
Proof.
  intros H.
  specialize (H "/tmp/out"
                (snd (Sample.backup (Some "/tmp/out") Sample.scenario_A))).
  assert (E : "/tmp/out" = archive_path "/tmp/out" Sample.scenario_A)
    by (apply H; vm_compute; reflexivity).
  vm_compute in E; discriminate E.
Qed.

(** C6 as stated fails: a [KeyboardInterrupt] during the copy is
    swallowed and the result is absent, but nothing is logged. *)
Lemma backup_portal_interrupt_not_logged :
  ~ raised_is_logged Sample.STYLES Sample.DOWNLOADS Sample.len_truth
      "/tmp/out" Sample.interrupted.
Proof.
  intros H.
  destruct (H KeyboardInterrupt
              (snd (backup_try Sample.STYLES Sample.len_truth "/tmp/out"
                      (archive_path "/tmp/out" Sample.interrupted)
                      (live_connection Sample.interrupted) Sample.interrupted)))
    as (w' & R & L).
  - vm_compute; reflexivity.
  - vm_compute in R; injection R as <-.
    vm_compute in L; exact L.
Qed.

Lemma backup_copies_selected_witness :
  Sample.backup (Some "/tmp/out") Sample.scenario_A
  = (Ret (Some "/tmp/out"), snd (Sample.backup (Some "/tmp/out") Sample.scenario_A))
  /\ Sample.len_truth
       (store_layers Sample.scenario_A (live_connection Sample.scenario_A)) = true
  /\ selected_names Sample.scenario_A (live_connection Sample.scenario_A) <> []
  /\ exists copied,
      copies (trace (snd (Sample.backup (Some "/tmp/out") Sample.scenario_A)))
      = copies (trace Sample.scenario_A)
        ++ map (fun nm => (gpkg_path (archive_path "/tmp/out" Sample.scenario_A), nm))
               copied
      /\ copied
         = filter (fun n => existsb (String.eqb n)
                     (selected_names Sample.scenario_A
                        (live_connection Sample.scenario_A)))
                  (listed_names Sample.STYLES Sample.scenario_A
                     (live_connection Sample.scenario_A))
      /\ forall nm,
           In nm copied
           <-> In nm (selected_names Sample.scenario_A
                        (live_connection Sample.scenario_A))
               /\ nm <> Sample.STYLES.
Proof.
  split; [vm_compute; reflexivity|].
  split; [reflexivity|].
  split; [vm_compute; discriminate|].
  apply (@backup_copies_selected Sample.STYLES Sample.DOWNLOADS Sample.len_truth
           (Some "/tmp/out") Sample.scenario_A "/tmp/out"
           (snd (Sample.backup (Some "/tmp/out") Sample.scenario_A))).
  - vm_compute; reflexivity.
  - reflexivity.
  - vm_compute; discriminate.
Defined.

(** C5 as stated fails twice.  When nothing registered is present in
    the source, the selection is empty and every layer of the source
    is copied; when the style table itself is registered and present,
    it is selected and not copied. *)
Lemma backup_copies_differ_from_selection :
  ~ copies_exactly_selected Sample.STYLES Sample.DOWNLOADS Sample.len_truth
      "/tmp/out" Sample.nothing_selected
  /\ ~ copies_exactly_selected Sample.STYLES Sample.DOWNLOADS Sample.len_truth
         "/tmp/out" Sample.styles_registered.
Proof.
  unfold copies_exactly_selected; split; intros H.
  - assert (R : backup_portal Sample.STYLES Sample.DOWNLOADS Sample.len_truth
                  (Some "/tmp/out") Sample.nothing_selected
                = (Ret (Some "/tmp/out"),
                   snd (Sample.backup (Some "/tmp/out") Sample.nothing_selected)))
      by (vm_compute; reflexivity).
    specialize (H "/tmp/out"
                  (snd (Sample.backup (Some "/tmp/out") Sample.nothing_selected))
                  R "roads").
    destruct H as [H1 _].
    assert (E : In "roads"
                   (selected_names Sample.nothing_selected
                      (live_connection Sample.nothing_selected))).
    { apply H1; vm_compute; left; reflexivity. }
    vm_compute in E; exact E.
  - assert (R : backup_portal Sample.STYLES Sample.DOWNLOADS Sample.len_truth
                  (Some "/tmp/out") Sample.styles_registered
                = (Ret (Some "/tmp/out"),
                   snd (Sample.backup (Some "/tmp/out") Sample.styles_registered)))
      by (vm_compute; reflexivity).
    specialize (H "/tmp/out"
                  (snd (Sample.backup (Some "/tmp/out") Sample.styles_registered))
                  R Sample.STYLES).
    destruct H as [_ H2].
    assert (E : In (gpkg_path (archive_path "/tmp/out" Sample.styles_registered),
                    Sample.STYLES)
                   (skipn (length (copies (trace Sample.styles_registered)))
                      (copies (trace (snd (Sample.backup (Some "/tmp/out")
                                             Sample.styles_registered)))))).
    { apply H2; vm_compute; right; left; reflexivity. }
    vm_compute in E.
    repeat (destruct E as [E | E]; [discriminate E|]); exact E.
Qed.

(* ================================================================== *)
(** ** More on the schema comparator *)

Section ComparatorReport.

Lemma in_insert_by_name (f g : field) (l : list field) :
  In g (insert_by_name f l) <-> g = f \/ In g l.
Proof.
  induction l as [|h r IH]; simpl.
  - split; [intros [E | []]; auto | intros [E | []]; auto].
  - destruct (String.leb (field_name f) (field_name h)); simpl.
    + split; [intros [E | H]; auto | intros [E | H]; auto].
    + rewrite IH; split; [intros [E | [E | H]]; auto | intros [E | [E | H]]; auto].
Qed.

(** Sorting keeps the fields. *)
Lemma in_sort_by_name (g : field) (l : list field) :
  In g (sort_by_name l) <-> In g l.
Proof.
  induction l as [|f r IH]; simpl; [tauto|].
  rewrite in_insert_by_name, IH; split; [intros [E | H]; auto | intros [E | H]; auto].
Qed.

Lemma insert_sorted (f : field) (l : list field) :
  sorted_by_name l = true -> sorted_by_name (insert_by_name f l) = true.
Proof.
  induction l as [|g r IH]; intros Hs; [reflexivity|].
  simpl insert_by_name.
  destruct (String.leb (field_name f) (field_name g)) eqn:E.
  - change (String.leb (field_name f) (field_name g)
            && sorted_by_name (g :: r) = true).
    now rewrite E, Hs.
  - assert (Hgf : String.leb (field_name g) (field_name f) = true)
      by (destruct (String.leb_total (field_name f) (field_name g)); congruence).
    assert (Hr : sorted_by_name r = true).
    { destruct r as [|h r']; [reflexivity|].
      simpl in Hs; apply andb_true_iff in Hs as [_ Hs]; exact Hs. }
    specialize (IH Hr).
    destruct r as [|h r'].
    + simpl; now rewrite Hgf.
    + simpl in Hs; apply andb_true_iff in Hs as [Hgh _].
      simpl insert_by_name in *.
      destruct (String.leb (field_name f) (field_name h)).
      * change (String.leb (field_name g) (field_name f)
                && sorted_by_name (f :: h :: r') = true).
        now rewrite Hgf, IH.
      * change (String.leb (field_name g) (field_name h)
                && sorted_by_name (h :: insert_by_name f r') = true).
        now rewrite Hgh, IH.
Qed.

Lemma sort_sorted (l : list field) : sorted_by_name (sort_by_name l) = true.
Proof.
  induction l as [|f r IH]; [reflexivity|].
  simpl; now apply insert_sorted.
Qed.

(** A schema compared with itself is compatible, with nothing new and
    nothing deleted, with or without [ignore_case]. *)
Theorem compare_schema_with_itself (S : list field) (ignore_case : bool) :
  compare_schema S S ignore_case
  = {| compatible := true; deleted_fields := []; new_fields := [] |}.
Proof. apply compare_schema_reflexive. Qed.

Lemma case_variant_lower (S1 S2 : list field) :
  case_variant S1 S2 -> lower_names S1 = lower_names S2.
Proof.
  induction 1 as [|[[n1 t1] w1] [[n2 t2] w2] r1 r2 (Hn & Ht & Hw) _ IH];
    [reflexivity|].
  unfold field_name in Hn; simpl in *; now rewrite Hn, Ht, Hw, IH.
Qed.

(** Under [ignore_case], two schemas with ASCII field names that
    differ only in the case of these names, position by position, are
    compatible, with nothing new and nothing deleted. *)
Theorem compare_schema_case_variant (S1 S2 : list field) :
  lowers_ascii true S1 = true ->
  lowers_ascii true S2 = true ->
  case_variant S1 S2 ->
  compare_schema S1 S2 true
  = {| compatible := true; deleted_fields := []; new_fields := [] |}.
Proof.
  intros _ _ H; apply case_variant_lower in H.
  unfold compare_schema; rewrite H.
  apply (compare_schema_reflexive S2 true).
Qed.

(** When the report says compatible, it lists nothing new and nothing
    deleted. *)
Theorem compatible_lists_nothing (S1 S2 : list field) (ignore_case : bool) :
  compatible (compare_schema S1 S2 ignore_case) = true ->
  new_fields (compare_schema S1 S2 ignore_case) = []
  /\ deleted_fields (compare_schema S1 S2 ignore_case) = [].
Proof.
  unfold compare_schema; simpl; intros H.
  apply schema_eqb_eq in H; rewrite H.
  now rewrite no_field_missing.
Qed.

(** Both lists of the report are in ascending order of field name. *)
Theorem report_lists_sorted (S1 S2 : list field) (ignore_case : bool) :
  sorted_by_name (new_fields (compare_schema S1 S2 ignore_case)) = true
  /\ sorted_by_name (deleted_fields (compare_schema S1 S2 ignore_case)) = true.
Proof. split; apply sort_sorted. Qed.

(** [new_fields] holds exactly the fields of the first schema that the
    second does not have, and [deleted_fields] exactly the fields of
    the second that the first does not have; fields are compared as
    whole tuples, after lower-casing the names under [ignore_case],
    where the names are taken to be ASCII. *)
Theorem report_lists_membership (S1 S2 : list field) (ignore_case : bool) (f : field) :
  lowers_ascii ignore_case S1 = true ->
  lowers_ascii ignore_case S2 = true ->
  (In f (new_fields (compare_schema S1 S2 ignore_case))
   <-> In f (normalised ignore_case S1) /\ ~ In f (normalised ignore_case S2))
  /\ (In f (deleted_fields (compare_schema S1 S2 ignore_case))
      <-> In f (normalised ignore_case S2) /\ ~ In f (normalised ignore_case S1)).
Proof.
  intros _ _.
  assert (G : forall A B : list field,
    In f (sort_by_name
            (filter (fun g => negb (field_in g (sort_by_name B))) (sort_by_name A)))
    <-> In f A /\ ~ In f B).
  { intros A B.
    rewrite in_sort_by_name, filter_In, in_sort_by_name, negb_true_iff.
    rewrite <- not_true_iff_false, field_in_In, in_sort_by_name; tauto. }
  split; apply G.
Qed.

End ComparatorReport.

Lemma compare_schema_case_variant_witness :
  lowers_ascii true Sample.scenario_B_1 = true
  /\ lowers_ascii true Sample.scenario_B_2 = true
  /\ case_variant Sample.scenario_B_1 Sample.scenario_B_2
  /\ compare_schema Sample.scenario_B_1 Sample.scenario_B_2 true
     = {| compatible := true; deleted_fields := []; new_fields := [] |}.
Proof.
  assert (H : case_variant Sample.scenario_B_1 Sample.scenario_B_2)
    by (repeat constructor).
  split; [reflexivity|]; split; [reflexivity|]; split; [exact H|].
  apply (@compare_schema_case_variant Sample.scenario_B_1 Sample.scenario_B_2
           eq_refl eq_refl H).
Defined.

Lemma report_lists_membership_witness :
  lowers_ascii true Sample.scenario_B_1 = true
  /\ lowers_ascii true [("ID", "int", 10%Z)] = true
  /\ In ("name", "string", 50%Z)
        (new_fields (compare_schema Sample.scenario_B_1 [("ID", "int", 10%Z)] true)).
Proof.
  split; [reflexivity|]; split; [reflexivity|].
  apply (proj1 (@report_lists_membership Sample.scenario_B_1 [("ID", "int", 10%Z)]
                  true ("name", "string", 50%Z) eq_refl eq_refl)).
  split; [right; left; reflexivity|].
  intros [E | []]; discriminate E.
Defined.

Lemma compatible_lists_nothing_witness :
  compatible (compare_schema Sample.scenario_B_1 Sample.scenario_B_2 true) = true
  /\ new_fields (compare_schema Sample.scenario_B_1 Sample.scenario_B_2 true) = []
  /\ deleted_fields (compare_schema Sample.scenario_B_1 Sample.scenario_B_2 true) = [].
Proof.
  split; [reflexivity|].
  apply (@compatible_lists_nothing Sample.scenario_B_1 Sample.scenario_B_2 true).
  reflexivity.
Defined.

Section ComparatorOrder.

Lemma ascii_compare_refl (c : ascii) : Ascii.compare c c = Eq.
Proof. apply N.compare_refl. Qed.

Lemma ascii_compare_lt_trans (a b c : ascii) :
  Ascii.compare a b = Lt -> Ascii.compare b c = Lt -> Ascii.compare a c = Lt.
Proof.
  unfold Ascii.compare; rewrite !N.compare_lt_iff; apply N.lt_trans.
Qed.

(** The order Python sorts names by is transitive. *)
Lemma string_leb_trans (a b c : string) :
  String.leb a b = true -> String.leb b c = true -> String.leb a c = true.
Proof.
  unfold String.leb.
  assert (G : forall a b c, String.compare a b <> Gt -> String.compare b c <> Gt ->
                            String.compare a c <> Gt).
  { clear; induction a as [|x a IH]; intros [|y b] [|z c]; simpl;
      try congruence.
    destruct (Ascii.compare x y) eqn:Exy; try congruence;
      destruct (Ascii.compare y z) eqn:Eyz; try congruence; intros H1 H2.
    - apply Ascii.compare_eq_iff in Exy, Eyz; subst.
      rewrite ascii_compare_refl; now apply (IH b c).
    - apply Ascii.compare_eq_iff in Exy; subst; now rewrite Eyz.
    - apply Ascii.compare_eq_iff in Eyz; subst; now rewrite Exy.
    - now rewrite (ascii_compare_lt_trans _ _ _ Exy Eyz). }
  intros H1 H2.
  destruct (String.compare a c) eqn:E; try reflexivity.
  exfalso; apply (G a b c); try assumption.
  - destruct (String.compare a b); congruence.
  - destruct (String.compare b c); congruence.
Qed.

Lemma leb_false_flip (a b : string) :
  String.leb a b = false -> String.leb b a = true.
Proof. destruct (String.leb_total a b); congruence. Qed.

Lemma leb_one_way (a b : string) :
  a <> b -> String.leb a b = true -> String.leb b a = false.
Proof.
  intros Hn H; destruct (String.leb b a) eqn:E; [|reflexivity].
  elim Hn; now apply String.leb_antisym.
Qed.

(** Two insertions of fields with different names commute. *)
Lemma insert_by_name_comm (f g : field) (l : list field) :
  field_name f <> field_name g ->
  insert_by_name f (insert_by_name g l) = insert_by_name g (insert_by_name f l).
Proof.
  intros Hn.
  induction l as [|h r IH]; simpl.
  - destruct (String.leb (field_name f) (field_name g)) eqn:E.
    + now rewrite (leb_one_way Hn E).
    + now rewrite (leb_false_flip _ _ E).
  - destruct (String.leb (field_name g) (field_name h)) eqn:Eg;
      destruct (String.leb (field_name f) (field_name h)) eqn:Ef; simpl;
      rewrite ?Eg, ?Ef.
    + destruct (String.leb (field_name f) (field_name g)) eqn:E.
      * rewrite (leb_one_way Hn E); simpl; now rewrite ?Eg, ?Ef.
      * rewrite (leb_false_flip _ _ E); simpl; now rewrite ?Eg, ?Ef.
    + destruct (String.leb (field_name f) (field_name g)) eqn:E.
      * rewrite (string_leb_trans _ _ _ E Eg) in Ef; discriminate.
      * simpl; now rewrite ?Eg, ?Ef.
    + destruct (String.leb (field_name g) (field_name f)) eqn:E.
      * rewrite (string_leb_trans _ _ _ E Ef) in Eg; discriminate.
      * simpl; now rewrite ?Eg, ?Ef.
    + now rewrite IH.
Qed.

(** With all names different, the sorted schema does not depend on the
    order the fields came in. *)
Lemma sort_by_name_perm (l1 l2 : list field) :
  Permutation l1 l2 -> NoDup (map field_name l1) ->
  sort_by_name l1 = sort_by_name l2.
Proof.
  induction 1 as [| x l l' _ IH | x y l | l l' l'' H1 IH1 H2 IH2]; intros Hd.
  - reflexivity.
  - simpl; rewrite IH; [reflexivity|]. now inversion Hd.
  - simpl; apply insert_by_name_comm.
    inversion Hd as [|? ? Hy _]; subst.
    intros E; apply Hy; left; now symmetry.
  - rewrite IH1 by assumption; apply IH2.
    eapply Permutation_NoDup; [|exact Hd].
    now apply Permutation_map.
Qed.

Lemma normalised_perm (ic : bool) (S S' : list field) :
  Permutation S S' -> Permutation (normalised ic S) (normalised ic S').
Proof.
  destruct ic; simpl; [|auto].
  unfold lower_names; apply Permutation_map.
Qed.

(** When the field names of each schema are all different (after
    lower-casing under [ignore_case], where the names are taken to be
    ASCII), the report does not depend on the order in which either
    layer lists its fields. *)
Theorem compare_schema_order_independent
  (S1 S1' S2 S2' : list field) (ignore_case : bool) :
  lowers_ascii ignore_case S1 = true ->
  lowers_ascii ignore_case S2 = true ->
  Permutation S1 S1' -> Permutation S2 S2' ->
  NoDup (map field_name (normalised ignore_case S1)) ->
  NoDup (map field_name (normalised ignore_case S2)) ->
  compare_schema S1' S2' ignore_case = compare_schema S1 S2 ignore_case.
Proof.
  intros _ _ P1 P2 D1 D2.
  apply (normalised_perm ignore_case) in P1, P2.
  unfold compare_schema; fold (normalised ignore_case S1)
    (normalised ignore_case S2) (normalised ignore_case S1')
    (normalised ignore_case S2').
  now rewrite <- (sort_by_name_perm P1 D1), <- (sort_by_name_perm P2 D2).
Qed.

End ComparatorOrder.

Lemma compare_schema_order_independent_witness :
  lowers_ascii true Sample.scenario_B_1 = true
  /\ lowers_ascii true Sample.scenario_B_2 = true
  /\ Permutation Sample.scenario_B_1 (rev Sample.scenario_B_1)
  /\ Permutation Sample.scenario_B_2 (rev Sample.scenario_B_2)
  /\ NoDup (map field_name (normalised true Sample.scenario_B_1))
  /\ NoDup (map field_name (normalised true Sample.scenario_B_2))
  /\ compare_schema (rev Sample.scenario_B_1) (rev Sample.scenario_B_2) true
     = compare_schema Sample.scenario_B_1 Sample.scenario_B_2 true.
Proof.
  assert (P1 : Permutation Sample.scenario_B_1 (rev Sample.scenario_B_1))
    by apply Permutation_rev.
  assert (P2 : Permutation Sample.scenario_B_2 (rev Sample.scenario_B_2))
    by apply Permutation_rev.
  assert (D1 : NoDup (map field_name (normalised true Sample.scenario_B_1))).
  { simpl; repeat constructor; simpl; intuition discriminate. }
  assert (D2 : NoDup (map field_name (normalised true Sample.scenario_B_2))).
  { simpl; repeat constructor; simpl; intuition discriminate. }
  split; [reflexivity|]; split; [reflexivity|].
  split; [exact P1|]; split; [exact P2|]; split; [exact D1|]; split; [exact D2|].
  apply (@compare_schema_order_independent
           Sample.scenario_B_1 (rev Sample.scenario_B_1)
           Sample.scenario_B_2 (rev Sample.scenario_B_2) true
           eq_refl eq_refl P1 P2 D1 D2).
Defined.

(* ================================================================== *)
(** ** The manager object *)

(** [find] gives the first element that passes the test. *)
Lemma find_first {X} (f : X -> bool) (l : list X) (x : X) :
  find f l = Some x ->
  exists before after,
    l = before ++ x :: after
    /\ f x = true
    /\ forall y, In y before -> f y = false.
Proof.
  induction l as [|a r IH]; simpl; [discriminate|].
  destruct (f a) eqn:Fa.
  - intros E; injection E as <-.
    exists [], r; repeat split; [exact Fa | intros y []].
  - intros E; destruct (IH E) as (before & after & -> & Hx & Hb).
    exists (a :: before), after; repeat split; [exact Hx|].
    intros y [<- | Hy]; [exact Fa | now apply Hb].
Qed.

Section Manager.

Variable STYLES_TABLE : string.
Variables (self : OSGEOManager) (h : Handle).
Hypothesis Hsrc : source self = Some h.

(** [get_layernames] reads without changing anything and returns, in
    native order, the names of the layers of the source other than the
    style table: a name is returned iff the source holds a layer of
    that name and the name is not the reserved one. *)
Theorem get_layernames_lists (w : World) :
  get_layernames STYLES_TABLE self w
  = (Ret (listed_names STYLES_TABLE w (h_loc h)), w)
  /\ forall nm,
       In nm (listed_names STYLES_TABLE w (h_loc h))
       <-> present w (h_loc h) nm = true /\ nm <> STYLES_TABLE.
Proof.
  split.
  - unfold get_layernames, get_layers, bind; rewrite Hsrc.
    rewrite get_source_layers_run; unfold ret.
    now rewrite names_of_views.
  - intros nm; unfold listed_names, present.
    rewrite in_map_iff, existsb_exists; split.
    + intros (l & E & Hl); apply filter_In in Hl as [Hl Hn].
      apply negb_true_iff, String.eqb_neq in Hn; subst nm.
      split; [|assumption].
      exists l; split; [assumption | apply String.eqb_refl].
    + intros [(l & Hl & E) Hn]; apply String.eqb_eq in E; subst nm.
      exists l; split; [reflexivity|].
      apply filter_In; split; [assumption|].
      now apply negb_true_iff, String.eqb_neq.
Qed.

Lemma get_layer_by_name_run (layername : string) (w : World) :
  exists r,
    get_layer_by_name self layername w = (Ret r, w)
    /\ (r <> None <-> present w (h_loc h) layername = true)
    /\ r = option_map (fun l => mkGpkgLayer l (Some h))
                      (find (fun l => String.eqb (GetName l) layername)
                            (store_layers w (h_loc h))).
Proof.
  unfold get_layer_by_name, layer_exists, bind; rewrite Hsrc.
  rewrite source_layer_exists_run.
  destruct (present w (h_loc h) layername) eqn:P.
  - rewrite GetLayerByName_run.
    destruct (find _ _) as [l|] eqn:F.
    + exists (Some (mkGpkgLayer l (Some h))); split; [reflexivity|].
      split; [split; [reflexivity | discriminate] | reflexivity].
    + unfold present in P; rewrite <- find_existsb, F in P; discriminate.
  - exists None; split; [reflexivity|].
    split; [split; [intros H; now elim H | discriminate]|].
    now rewrite (absent_not_found _ _ _ P).
Qed.

(** [get_layer_by_name] reads without changing anything; it returns a
    layer exactly when the source holds one of that name, and then the
    first such layer of the source, in native order, wrapped with the
    manager's own handle; otherwise it returns [None]. *)
Theorem get_layer_by_name_finds (layername : string) (w : World) :
  exists r,
    get_layer_by_name self layername w = (Ret r, w)
    /\ (r <> None <-> present w (h_loc h) layername = true)
    /\ forall l, r = Some l ->
         name l = layername
         /\ gpkg_source l = Some h
         /\ exists before after,
              store_layers w (h_loc h) = before ++ gpkg_layer l :: after
              /\ forall x, In x before -> GetName x <> layername.
Proof.
  destruct (get_layer_by_name_run layername w) as (r & E & Hr & Hf).
  exists r; split; [exact E|]; split; [exact Hr|].
  intros l El; subst r.
  destruct (find _ _) as [x|] eqn:F; [|discriminate].
  injection El as <-; simpl.
  destruct (find_first _ _ F) as (before & after & Hl & Hx & Hb).
  apply String.eqb_eq in Hx.
  split; [exact Hx|]; split; [reflexivity|].
  exists before, after; split; [exact Hl|].
  intros y Hy Ey; specialize (Hb y Hy).
  apply String.eqb_neq in Hb; now elim Hb.
Qed.

End Manager.

Lemma get_layernames_lists_witness :
  source Sample.manager = Some (mkHandle 7 Sample.package 0)
  /\ get_layernames Sample.STYLES Sample.manager
       (Sample.with_package Sample.scenario_A)
     = (Ret (listed_names Sample.STYLES (Sample.with_package Sample.scenario_A)
               Sample.package),
        Sample.with_package Sample.scenario_A).
Proof.
  split; [reflexivity|].
  apply (@get_layernames_lists Sample.STYLES Sample.manager
           (mkHandle 7 Sample.package 0) eq_refl
           (Sample.with_package Sample.scenario_A)).
Defined.

Lemma get_layer_by_name_finds_witness :
  source Sample.manager = Some (mkHandle 7 Sample.package 0)
  /\ exists r,
      get_layer_by_name Sample.manager "roads"
        (Sample.with_package Sample.scenario_A)
      = (Ret r, Sample.with_package Sample.scenario_A)
      /\ (r <> None
          <-> present (Sample.with_package Sample.scenario_A) Sample.package "roads"
              = true)
      /\ forall l, r = Some l ->
           name l = "roads"
           /\ gpkg_source l = Some (mkHandle 7 Sample.package 0)
           /\ exists before after,
                store_layers (Sample.with_package Sample.scenario_A) Sample.package
                = before ++ gpkg_layer l :: after
                /\ forall x, In x before -> GetName x <> "roads".
Proof.
  split; [reflexivity|].
  apply (@get_layer_by_name_finds Sample.manager (mkHandle 7 Sample.package 0)
           eq_refl "roads" (Sample.with_package Sample.scenario_A)).
Defined.

Section ManagerInit.

Variable package_path : string.

(** On a package that can be opened, the constructor returns a manager
    that keeps in [source] the handle the scope yielded; by then the
    scope has flushed the handle and given it up, and no store has
    changed. *)
Theorem OSGEOManager_init_reachable (w : World) (ls : list OgrLayer) :
  lookup package_path (stores w) = Some ls ->
  exists w',
    OSGEOManager_init package_path w
    = (Ret (mkManager package_path
              (Some (mkHandle (next_handle w) package_path 0))), w')
    /\ trace w'
       = trace w ++ [EvOpen (mkHandle (next_handle w) package_path 0);
                     EvFlushCache (mkHandle (next_handle w) package_path 0);
                     EvRelease (mkHandle (next_handle w) package_path 0)]
    /\ stores w' = stores w.
Proof.
  intros H.
  assert (E : ogr_Open package_path 0 w
              = (Ret (Some (mkHandle (next_handle w) package_path 0)),
                 opened (mkHandle (next_handle w) package_path 0) w))
    by (unfold ogr_Open; now rewrite H).
  unfold OSGEOManager_init, bind.
  erewrite with_opened by exact E.
  eexists; split; [reflexivity|].
  split; [|reflexivity].
  simpl; now rewrite <- !app_assoc.
Qed.

(** On a package that cannot be opened, the constructor builds no
    manager: it ends in the [AttributeError] of [None.FlushCache()],
    or in the driver's [RuntimeError] when the driver raises, and
    leaves the world as it was. *)
Theorem OSGEOManager_init_unreachable (w : World) :
  lookup package_path (stores w) = None ->
  exists e,
    OSGEOManager_init package_path w = (Raise e, w)
    /\ e = if use_exceptions w
           then RuntimeError ("cannot open " ++ package_path)%string
           else AttributeError "'NoneType' object has no attribute 'FlushCache'".
Proof.
  intros H; unfold OSGEOManager_init, bind.
  destruct (use_exceptions w) eqn:U.
  - erewrite with_refused by (unfold ogr_Open; rewrite H, U; reflexivity).
    eexists; split; reflexivity.
  - erewrite with_absent by (unfold ogr_Open; rewrite H, U; reflexivity).
    eexists; split; reflexivity.
Qed.

End ManagerInit.

Lemma OSGEOManager_init_reachable_witness :
  lookup Sample.package (stores (Sample.with_package Sample.scenario_A))
  = Some [Sample.lyr "roads"]
  /\ exists w',
      OSGEOManager_init Sample.package (Sample.with_package Sample.scenario_A)
      = (Ret (mkManager Sample.package (Some (mkHandle 0 Sample.package 0))), w')
      /\ trace w'
         = trace (Sample.with_package Sample.scenario_A)
           ++ [EvOpen (mkHandle 0 Sample.package 0);
               EvFlushCache (mkHandle 0 Sample.package 0);
               EvRelease (mkHandle 0 Sample.package 0)]
      /\ stores w' = stores (Sample.with_package Sample.scenario_A).
Proof.
  split; [reflexivity|].
  apply (@OSGEOManager_init_reachable Sample.package
           (Sample.with_package Sample.scenario_A) [Sample.lyr "roads"]).
  reflexivity.
Defined.

Lemma OSGEOManager_init_unreachable_witness :
  lookup "/data/missing.gpkg" (stores Sample.scenario_A) = None
  /\ exists e,
      OSGEOManager_init "/data/missing.gpkg" Sample.scenario_A
      = (Raise e, Sample.scenario_A)
      /\ e = AttributeError "'NoneType' object has no attribute 'FlushCache'".
Proof.
  split; [reflexivity|].
  apply (@OSGEOManager_init_unreachable "/data/missing.gpkg" Sample.scenario_A).
  reflexivity.
Defined.

(* ================================================================== *)
(** ** Comparing with the portal's copy of a layer *)

(** [check_schema_geonode] never returns a report.  Every call ends in
    an exception and leaves the world as it was: at the latest the
    construction of the second manager with the keyword [is_postgis]
    raises a [TypeError].  With a manager on an open source and
    exactly one catalog row of the given name, the exception is the
    [SourceException] when the package does not hold the layer, and
    that [TypeError] when it does. *)
Theorem check_schema_geonode_never_returns
  (self : OSGEOManager) (layername glayername : string) (ignore_case : bool)
  (w : World) :
  exists e,
    check_schema_geonode self layername glayername ignore_case w = (Raise e, w)
    /\ forall h row,
         source self = Some h ->
         filter (fun l => String.eqb (alternate l) glayername) (catalog w) = [row] ->
         e = if present w (h_loc h) layername
             then TypeError "__init__() got an unexpected keyword argument 'is_postgis'"
             else SourceException "Cannot find this layer in Source".
Proof.
  unfold check_schema_geonode.
  destruct (source self) as [h|] eqn:Hs.
  - destruct (get_layer_by_name_run self Hs layername w) as (r & E & Hr & _).
    unfold bind at 1; rewrite E.
    unfold bind at 1; unfold Layer_objects_get, bind at 1, gets.
    destruct (filter _ (catalog w)) as [|row [|row' rows]] eqn:F.
    + eexists; split; [reflexivity|]; intros h0 row0 _ H; discriminate H.
    + destruct r as [l|].
      * assert (P : present w (h_loc h) layername = true)
          by (apply Hr; discriminate).
        eexists; split; [reflexivity|].
        intros h0 row0 E0 _; injection E0 as <-; now rewrite P.
      * assert (P : present w (h_loc h) layername = false).
        { destruct (present w (h_loc h) layername); [|reflexivity].
          now elim (proj2 Hr eq_refl). }
        eexists; split; [reflexivity|].
        intros h0 row0 E0 _; injection E0 as <-; now rewrite P.
    + eexists; split; [reflexivity|]; intros h0 row0 _ H; discriminate H.
  - unfold get_layer_by_name, layer_exists, source_layer_exists, GetLayerByName.
    rewrite Hs; eexists; split; [reflexivity|].
    intros h0 row0 H; discriminate H.
Qed.

(* ================================================================== *)
(** ** More on [postgis_as_gpkg] *)

Section ArchiveWriter.

Variable STYLES_TABLE : string.

(** When the source cannot be opened and the driver reports it by
    returning [None], [postgis_as_gpkg] fails with a [TypeError], but
    only after it has created the archive: an empty file is left at
    the destination. *)
Theorem postgis_as_gpkg_unreachable_source
  (conn dest : string) (layernames : option (list string)) (w : World) :
  lookup conn (stores w) = None ->
  use_exceptions w = false ->
  lookup (gpkg_path dest) (stores w) = None ->
  fault w (Op_CreateDataSource (gpkg_path dest)) = None ->
  exists w',
    postgis_as_gpkg STYLES_TABLE conn dest layernames w
    = (Raise (TypeError "'NoneType' object is not iterable"), w')
    /\ stores w' = stores w ++ [(gpkg_path dest, [])]
    /\ creations (trace w') = creations (trace w) ++ [gpkg_path dest].
Proof.
  intros Hc Hu Hd Hf.
  assert (E : ogr_Open conn 0 w = (Ret None, w))
    by (unfold ogr_Open; now rewrite Hc, Hu).
  unfold postgis_as_gpkg, bind at 1.
  erewrite with_absent by exact E.
  unfold bind at 1, CreateDataSource, bind at 1, external.
  rewrite Hf, Hd.
  assert (Hcr : forall tr p, creations (tr ++ [EvCreateDataSource p])
                             = creations tr ++ [p]).
  { induction tr as [|ev r IH]; intros p0; simpl; [reflexivity|].
    destruct ev; simpl; now rewrite IH. }
  destruct layernames as [[|n ns]|]; simpl;
    (eexists; split; [reflexivity|]; split; [reflexivity | apply Hcr]).
Qed.

End ArchiveWriter.

Lemma postgis_as_gpkg_unreachable_source_witness :
  lookup Sample.conn (stores MoreSamples.unreachable_db) = None
  /\ exists w',
      postgis_as_gpkg Sample.STYLES Sample.conn "/tmp/out/a" None
        MoreSamples.unreachable_db
      = (Raise (TypeError "'NoneType' object is not iterable"), w')
      /\ stores w' = stores MoreSamples.unreachable_db ++ [(gpkg_path "/tmp/out/a", [])]
      /\ creations (trace w')
         = creations (trace MoreSamples.unreachable_db) ++ [gpkg_path "/tmp/out/a"].
Proof.
  split; [reflexivity|].
  apply (@postgis_as_gpkg_unreachable_source Sample.STYLES Sample.conn "/tmp/out/a"
           None MoreSamples.unreachable_db); reflexivity.
Defined.

(* ================================================================== *)
(** ** More on [backup_portal] *)

Section BackupRuns.

Variables STYLES_TABLE DOWNLOADS_DIR_PATH : string.
Variable bool_DataSource : list OgrLayer -> bool.

Local Abbreviation backup :=
  (backup_portal STYLES_TABLE DOWNLOADS_DIR_PATH bool_DataSource).

(** A run into a given destination is the [try] statement on it. *)
Lemma backup_given (d : string) (w : World) :
  PyStr.truthy d = true ->
  backup (Some d) w
  = match backup_try STYLES_TABLE bool_DataSource d (archive_path d w)
            (live_connection w) w with
    | (Ret _, w1) => (Ret (Some d), w1)
    | (Raise e, w1) =>
        (Ret None, if isinstance_Exception e then add_log e w1 else w1)
    end.
Proof.
  intros Hd.
  rewrite backup_portal_unfold, resolve_given by exact Hd.
  apply backup_protected_run.
Qed.

(** [backup_portal] raises to its caller exactly when the allocation
    of a destination raises, with that exception; with a destination
    given it always returns. *)
Theorem backup_portal_raises_only_on_allocation
  (dest : option string) (w : World) :
  (forall e w',
     backup dest w = (Raise e, w')
     <-> resolve_destination DOWNLOADS_DIR_PATH dest w = (Raise e, w'))
  /\ (forall d, dest = Some d -> PyStr.truthy d = true ->
                exists r w', backup dest w = (Ret r, w')).
Proof.
  split.
  - intros e w'; rewrite backup_portal_unfold.
    destruct (resolve_destination DOWNLOADS_DIR_PATH dest w) as [[d | e0] w0].
    + rewrite backup_protected_run.
      destruct (backup_try _ _ d _ _ w0) as [[[] | e1] w1];
        split; discriminate.
    + split; intros H; injection H as -> ->; reflexivity.
  - intros d -> Hd; rewrite backup_given by exact Hd.
    destruct (backup_try _ _ d _ _ w) as [[[] | e1] w1]; eauto.
Qed.

(** When the database cannot be opened, a run into a writable
    directory returns an absent result and changes nothing but the
    log.  What is logged is the [AttributeError] of
    [None.FlushCache()] when the driver reports the failure by
    returning [None], and the driver's [RuntimeError] when it
    raises. *)
Theorem backup_portal_unreachable_database (d : string) (w : World) :
  PyStr.truthy d = true ->
  lookup d (dirs w) = Some true ->
  lookup (live_connection w) (stores w) = None ->
  backup (Some d) w
  = (Ret None,
     add_log (if use_exceptions w
              then RuntimeError ("cannot open " ++ live_connection w)%string
              else AttributeError "'NoneType' object has no attribute 'FlushCache'")
             w).
Proof.
  intros Hd Hw Hc.
  rewrite backup_given by exact Hd.
  rewrite try_block_writable by exact Hw.
  destruct (use_exceptions w) eqn:U.
  - erewrite with_refused by (unfold ogr_Open; rewrite Hc, U; reflexivity).
    reflexivity.
  - erewrite with_absent by (unfold ogr_Open; rewrite Hc, U; reflexivity).
    reflexivity.
Qed.

(** When the opened source tests false, a run into a writable
    directory returns the destination as after a success, although it
    selected nothing, created no archive and logged nothing: the
    source was opened, flushed and released, and that is all. *)
Theorem backup_portal_source_tests_false
  (d : string) (w : World) (ls : list OgrLayer) :
  PyStr.truthy d = true ->
  lookup d (dirs w) = Some true ->
  lookup (live_connection w) (stores w) = Some ls ->
  bool_DataSource ls = false ->
  exists w',
    backup (Some d) w = (Ret (Some d), w')
    /\ stores w' = stores w
    /\ log w' = log w
    /\ trace w'
       = trace w
         ++ [EvOpen (mkHandle (next_handle w) (live_connection w) 0);
             EvFlushCache (mkHandle (next_handle w) (live_connection w) 0);
             EvRelease (mkHandle (next_handle w) (live_connection w) 0)].
Proof.
  intros Hd Hw Hc Hb.
  rewrite backup_given by exact Hd.
  rewrite try_block_writable by exact Hw.
  erewrite with_opened by (unfold ogr_Open; rewrite Hc; reflexivity).
  rewrite backup_steps_false;
    [| reflexivity | unfold store_layers; simpl stores; now rewrite Hc].
  eexists; split; [reflexivity|].
  repeat split; simpl; now rewrite <- !app_assoc.
Qed.

End BackupRuns.

Lemma backup_portal_unreachable_database_witness :
  PyStr.truthy "/tmp/out" = true
  /\ lookup "/tmp/out" (dirs MoreSamples.unreachable_db) = Some true
  /\ lookup (live_connection MoreSamples.unreachable_db)
            (stores MoreSamples.unreachable_db) = None
  /\ Sample.backup (Some "/tmp/out") MoreSamples.unreachable_db
     = (Ret None,
        add_log (AttributeError "'NoneType' object has no attribute 'FlushCache'")
                MoreSamples.unreachable_db).
Proof.
  split; [reflexivity|]; split; [reflexivity|]; split; [reflexivity|].
  apply (@backup_portal_unreachable_database Sample.STYLES Sample.DOWNLOADS
           Sample.len_truth "/tmp/out" MoreSamples.unreachable_db);
    reflexivity.
Defined.

Lemma backup_portal_source_tests_false_witness :
  PyStr.truthy "/tmp/out" = true
  /\ lookup "/tmp/out" (dirs MoreSamples.empty_db) = Some true
  /\ lookup (live_connection MoreSamples.empty_db) (stores MoreSamples.empty_db)
     = Some []
  /\ Sample.len_truth [] = false
  /\ exists w',
      Sample.backup (Some "/tmp/out") MoreSamples.empty_db
      = (Ret (Some "/tmp/out"), w')
      /\ stores w' = stores MoreSamples.empty_db
      /\ log w' = log MoreSamples.empty_db
      /\ trace w'
         = trace MoreSamples.empty_db
           ++ [EvOpen (mkHandle (next_handle MoreSamples.empty_db)
                         (live_connection MoreSamples.empty_db) 0);
               EvFlushCache (mkHandle (next_handle MoreSamples.empty_db)
                               (live_connection MoreSamples.empty_db) 0);
               EvRelease (mkHandle (next_handle MoreSamples.empty_db)
                            (live_connection MoreSamples.empty_db) 0)].
Proof.
  split; [reflexivity|]; split; [reflexivity|]; split; [reflexivity|];
    split; [reflexivity|].
  apply (@backup_portal_source_tests_false Sample.STYLES Sample.DOWNLOADS
           Sample.len_truth "/tmp/out" MoreSamples.empty_db []);
    reflexivity.
Defined.

Section BackupSelection.

Variables STYLES_TABLE DOWNLOADS_DIR_PATH : string.
Variable bool_DataSource : list OgrLayer -> bool.

Local Abbreviation backup :=
  (backup_portal STYLES_TABLE DOWNLOADS_DIR_PATH bool_DataSource).

(** A registered layer that the source holds, and that has no
    geometry attribute or no default style in the catalog. *)
Local Abbreviation deficient w loc layer :=
  (present w loc (table_name layer) = true
   /\ (gml_attribute layer = None \/ default_style layer = None)).

Lemma select_layer_deficient (h : Handle) (acc : list style_row * list string)
  (layer : CatalogLayer) (w : World) :
  deficient w (h_loc h) layer ->
  exists e, select_layer (Some h) acc layer w = (Raise e, w).
Proof.
  intros [P D]; destruct acc as [layer_styles table_names].
  unfold select_layer, bind at 1.
  rewrite source_layer_exists_run, P.
  unfold bind, deref, get_sld_body, ret, raise.
  destruct (gml_attribute layer) as [g|]; [|eexists; reflexivity].
  destruct (default_style layer) as [s|]; [|eexists; reflexivity].
  destruct D; discriminate.
Qed.

Lemma select_layers_deficient (h : Handle) (w : World)
  (all_layers : list CatalogLayer) :
  (exists layer, In layer all_layers /\ deficient w (h_loc h) layer) ->
  forall acc, exists e, select_layers (Some h) acc all_layers w = (Raise e, w).
Proof.
  induction all_layers as [|a rest IH]; intros (layer & Hin & D) acc.
  - destruct Hin.
  - simpl; unfold bind.
    destruct (select_layer_run h acc a w) as (r & E & _); rewrite E.
    destruct r as [acc' | e]; [|eexists; reflexivity].
    destruct Hin as [<- | Hin].
    + destruct (@select_layer_deficient h acc a w D) as (e & E').
      rewrite E' in E; discriminate.
    + apply IH; exists layer; split; assumption.
Qed.

(** Steps 3 to 5 stop before any archive exists when some selected
    layer is deficient. *)
Lemma backup_steps_deficient (pkg conn : string) (h : Handle) (w : World) :
  h_loc h = conn ->
  (exists layer, In layer (catalog w) /\ deficient w conn layer) ->
  bool_DataSource (store_layers w conn) = true ->
  exists e,
    backup_steps STYLES_TABLE bool_DataSource pkg conn (Some h) w = (Raise e, w).
Proof.
  intros Hloc D Ht; unfold backup_steps, bind at 1, truth, gets.
  rewrite Hloc, Ht.
  unfold bind at 1, Layer_objects_all, bind at 1, external.
  destruct (fault w Op_Layer_objects_all) as [e|]; [eexists; reflexivity|].
  unfold gets; rewrite <- Hloc in D.
  destruct (@select_layers_deficient h w (catalog w) D ([], [])) as (e & E).
  unfold bind; rewrite E; eexists; reflexivity.
Qed.

(** One registered layer that the source holds but that has no
    geometry attribute or no default style in the catalog makes the
    whole backup fail: the result is absent, no archive is created and
    no store is changed, whatever the other layers are. *)
Theorem backup_portal_deficient_layer
  (d : string) (w : World) (ls : list OgrLayer) (layer : CatalogLayer) :
  PyStr.truthy d = true ->
  lookup d (dirs w) = Some true ->
  lookup (live_connection w) (stores w) = Some ls ->
  bool_DataSource ls = true ->
  In layer (catalog w) ->
  present w (live_connection w) (table_name layer) = true ->
  gml_attribute layer = None \/ default_style layer = None ->
  exists w',
    backup (Some d) w = (Ret None, w')
    /\ stores w' = stores w
    /\ creations (trace w') = creations (trace w).
Proof.
  intros Hd Hw Hc Hb Hin P D.
  rewrite backup_given by exact Hd.
  rewrite try_block_writable by exact Hw.
  erewrite with_opened by (unfold ogr_Open; rewrite Hc; reflexivity).
  set (h := mkHandle (next_handle w) (live_connection w) 0).
  destruct (@backup_steps_deficient (archive_path d w) (live_connection w) h
              (opened h w) eq_refl) as (e & E).
  - exists layer; split; [exact Hin|]; split; [exact P | exact D].
  - unfold store_layers; simpl stores; now rewrite Hc.
  - rewrite E.
    destruct (isinstance_Exception e); eexists; split; try reflexivity;
      (split; [reflexivity|]);
      simpl; rewrite !creations_app; simpl; now rewrite !app_nil_r.
Qed.

(** The copies of a whole run on a source that tests true. *)
Lemma backup_run_copies (dest : option string) (w : World) (p : string) (w' : World) :
  backup dest w = (Ret (Some p), w') ->
  bool_DataSource (store_layers w (live_connection w)) = true ->
  copies (trace w')
  = copies (trace w)
    ++ map (fun nm => (gpkg_path (archive_path p w), nm))
           (expected_copies STYLES_TABLE
              (selected_names w (live_connection w)) w (live_connection w)).
Proof.
  intros H Ht.
  rewrite backup_portal_unfold in H.
  destruct (resolve_destination DOWNLOADS_DIR_PATH dest w)
    as [[d | e] w0] eqn:R; [|discriminate].
  rewrite backup_protected_run in H.
  pose proof R as R'; apply resolve_keeps in R' as (Hs & Hc & Htr & Hk & Hdb).
  assert (Ea : archive_path d w0 = archive_path d w)
    by (unfold archive_path; now rewrite Hk).
  assert (El : live_connection w0 = live_connection w)
    by (unfold live_connection; now rewrite Hdb).
  rewrite Ea, El in H.
  destruct (backup_try _ _ d _ _ w0) as [[[] | e] w1] eqn:T; [|discriminate].
  injection H as -> ->.
  assert (Esl : store_layers w0 (live_connection w)
                = store_layers w (live_connection w))
    by (unfold store_layers; now rewrite Hs).
  assert (Ese : selected_names w0 (live_connection w)
                = selected_names w (live_connection w))
    by (unfold selected_names, present, store_layers; now rewrite Hs, Hc).
  assert (Eli : listed_names STYLES_TABLE w0 (live_connection w)
                = listed_names STYLES_TABLE w (live_connection w))
    by (unfold listed_names, store_layers; now rewrite Hs).
  apply backup_try_copies in T; [| now rewrite Esl].
  rewrite Htr, Ese in T; rewrite T.
  unfold expected_copies; now rewrite Eli.
Qed.

(** When no registered layer is present in the source, a backup that
    completes on a source that tests true has copied every layer of
    the source other than the style table, in native order: the empty
    selection is taken for no selection. *)
Theorem backup_portal_empty_selection_copies_all
  (dest : option string) (w : World) (p : string) (w' : World) :
  backup dest w = (Ret (Some p), w') ->
  bool_DataSource (store_layers w (live_connection w)) = true ->
  selected_names w (live_connection w) = [] ->
  copies (trace w')
  = copies (trace w)
    ++ map (fun nm => (gpkg_path (archive_path p w), nm))
           (listed_names STYLES_TABLE w (live_connection w)).
Proof.
  intros H Ht Hsel.
  rewrite (@backup_run_copies dest w p w' H Ht), Hsel; reflexivity.
Qed.

End BackupSelection.

Lemma backup_portal_deficient_layer_witness :
  PyStr.truthy "/tmp/out" = true
  /\ lookup "/tmp/out" (dirs MoreSamples.unstyled) = Some true
  /\ In (mkCatalogLayer "geonode:parcels" (Some "the_geom") None)
        (catalog MoreSamples.unstyled)
  /\ exists w',
      Sample.backup (Some "/tmp/out") MoreSamples.unstyled = (Ret None, w')
      /\ stores w' = stores MoreSamples.unstyled
      /\ creations (trace w') = creations (trace MoreSamples.unstyled).
Proof.
  split; [reflexivity|]; split; [reflexivity|].
  split; [right; left; reflexivity|].
  apply (@backup_portal_deficient_layer Sample.STYLES Sample.DOWNLOADS
           Sample.len_truth "/tmp/out" MoreSamples.unstyled
           [Sample.lyr "roads"; Sample.lyr "parcels"]
           (mkCatalogLayer "geonode:parcels" (Some "the_geom") None)).
  - reflexivity.
  - reflexivity.
  - reflexivity.
  - reflexivity.
  - right; left; reflexivity.
  - reflexivity.
  - right; reflexivity.
Defined.

Lemma backup_portal_empty_selection_copies_all_witness :
  backup_portal Sample.STYLES Sample.DOWNLOADS Sample.len_truth
    (Some "/tmp/out") Sample.nothing_selected
  = (Ret (Some "/tmp/out"),
     snd (Sample.backup (Some "/tmp/out") Sample.nothing_selected))
  /\ selected_names Sample.nothing_selected
       (live_connection Sample.nothing_selected) = []
  /\ copies (trace (snd (Sample.backup (Some "/tmp/out") Sample.nothing_selected)))
     = copies (trace Sample.nothing_selected)
       ++ map (fun nm => (gpkg_path (archive_path "/tmp/out" Sample.nothing_selected),
                          nm))
              (listed_names Sample.STYLES Sample.nothing_selected
                 (live_connection Sample.nothing_selected)).
Proof.
  assert (R : backup_portal Sample.STYLES Sample.DOWNLOADS Sample.len_truth
                (Some "/tmp/out") Sample.nothing_selected
              = (Ret (Some "/tmp/out"),
                 snd (Sample.backup (Some "/tmp/out") Sample.nothing_selected)))
    by (vm_compute; reflexivity).
  split; [exact R|]; split; [reflexivity|].
  apply (@backup_portal_empty_selection_copies_all Sample.STYLES Sample.DOWNLOADS
           Sample.len_truth (Some "/tmp/out") Sample.nothing_selected "/tmp/out"
           (snd (Sample.backup (Some "/tmp/out") Sample.nothing_selected)) R);
    reflexivity.
Defined.

(* ================================================================== *)
(** ** What every run keeps *)

Section Respects.

Variable R : World -> World -> Prop.
Hypothesis R_refl : forall w, R w w.
Hypothesis R_trans : forall a b c, R a b -> R b c -> R a c.

Lemma respects_same {A} (m : M A) :
  (forall w, snd (m w) = w) -> respects R m.
Proof. intros H w; rewrite H; apply R_refl. Qed.

Lemma respects_ret {A} (a : A) : respects R (ret a).
Proof. now apply respects_same. Qed.

Lemma respects_raise {A} (e : exn) : respects R (raise e : M A).
Proof. now apply respects_same. Qed.

Lemma respects_gets {A} (f : World -> A) : respects R (gets f).
Proof. now apply respects_same. Qed.

Lemma respects_external (op : Op) : respects R (external op).
Proof.
  apply respects_same; intros w; unfold external.
  now destruct (fault w op).
Qed.

Lemma respects_modify (f : World -> World) :
  (forall w, R w (f w)) -> respects R (modify f).
Proof. intros H w; apply H. Qed.

(** Sequencing, when the second part may rely on what the first part
    says of its result. *)
Lemma respects_bind_with {A B} (P : A -> Prop) (m : M A) (k : A -> M B) :
  respects R m ->
  (forall w a, fst (m w) = Ret a -> P a) ->
  (forall a, P a -> respects R (k a)) ->
  respects R (bind m k).
Proof.
  intros Hm HP Hk w; unfold bind.
  specialize (Hm w); specialize (HP w).
  destruct (m w) as [[a | e] w1]; simpl in *; [|exact Hm].
  eapply R_trans; [exact Hm | apply Hk, HP; reflexivity].
Qed.

Lemma respects_bind {A B} (m : M A) (k : A -> M B) :
  respects R m -> (forall a, respects R (k a)) -> respects R (bind m k).
Proof.
  intros Hm Hk; apply (respects_bind_with (fun _ => True)); auto.
Qed.

Lemma respects_for_each {A} (l : list A) (body : A -> M unit) :
  (forall x, respects R (body x)) -> respects R (for_each l body).
Proof.
  intros Hb; induction l as [|x r IH]; simpl.
  - apply respects_ret.
  - apply respects_bind; [apply Hb | intros _; exact IH].
Qed.

Lemma respects_try_except {A} (body : M A) (handler : exn -> M A) :
  respects R body -> (forall e, respects R (handler e)) ->
  respects R (try_except_Exception body handler).
Proof.
  intros Hb Hh w; unfold try_except_Exception.
  specialize (Hb w); destruct (body w) as [[a | e] w1]; simpl in *;
    [exact Hb|].
  destruct (isinstance_Exception e); [|exact Hb].
  eapply R_trans; [exact Hb | apply Hh].
Qed.

Lemma respects_finally_return {A} (v0 : A) (body : M A) :
  respects R body -> respects R (finally_return v0 body).
Proof.
  intros Hb w; unfold finally_return.
  specialize (Hb w); destruct (body w) as [[a | e] w1]; exact Hb.
Qed.

(** The scope of an opened source, for a relation that neither events
    nor the numbering of handles can break. *)
Lemma respects_with_open {A} (p : string) (u : Z) (body : option Handle -> M A) :
  (forall ev w, R w (add_event ev w)) ->
  (forall n w, R w (set_next_handle n w)) ->
  (forall y, respects R (body y)) ->
  respects R (with_ (open_source p u) body).
Proof.
  intros Hev Hn Hb w.
  destruct (ogr_Open_cases p u w)
    as [(h & _ & E) | [(_ & _ & E) | (_ & _ & msg & E)]].
  - erewrite with_opened by exact E.
    assert (Ho : R w (opened h w)).
    { unfold opened; eapply R_trans; [apply Hn | apply Hev]. }
    specialize (Hb (Some h) (opened h w)).
    destruct (body (Some h) (opened h w)) as [[a | e] w2]; simpl in *.
    + eapply R_trans; [exact Ho|].
      eapply R_trans; [exact Hb|].
      eapply R_trans; apply Hev.
    + eapply R_trans; [exact Ho | exact Hb].
  - erewrite with_absent by exact E.
    specialize (Hb None w).
    destruct (body None w) as [[a | e] w2]; exact Hb.
  - erewrite with_refused by exact E; apply R_refl.
Qed.

End Respects.

(* ------------------------------------------------------------------ *)
(** *** Observations that the backup keeps *)

Lemma lookup_update_other {V} (k l : string) (v : V) (s : list (string * V)) :
  k <> l -> lookup l (update k v s) = lookup l s.
Proof.
  intros Hn; induction s as [|[k' v'] r IH]; simpl.
  - destruct (String.eqb l k) eqn:E; [|reflexivity].
    apply String.eqb_eq in E; now elim Hn.
  - destruct (String.eqb k k') eqn:E; simpl.
    + apply String.eqb_eq in E; subst k'.
      destruct (String.eqb l k) eqn:E'; [|reflexivity].
      apply String.eqb_eq in E'; now elim Hn.
    + now rewrite IH.
Qed.

Lemma lookup_app_other {V} (k l : string) (v : V) (s : list (string * V)) :
  k <> l -> lookup l (s ++ [(k, v)]) = lookup l s.
Proof.
  intros Hn; induction s as [|[k' v'] r IH]; simpl.
  - destruct (String.eqb l k) eqn:E; [|reflexivity].
    apply String.eqb_eq in E; now elim Hn.
  - now rewrite IH.
Qed.

Section Keeps.

Variable X : Type.
Variable f : World -> X.

(** The locations that may be written without changing [f]. *)
Variable written : string -> Prop.

Hypothesis f_event : forall ev w, f (add_event ev w) = f w.
Hypothesis f_handle : forall n w, f (set_next_handle n w) = f w.
Hypothesis f_log : forall e w, f (add_log e w) = f w.
Hypothesis f_update :
  forall p v w, written p -> f (set_stores (update p v (stores w)) w) = f w.
Hypothesis f_create :
  forall p w, written p -> f (set_stores (stores w ++ [(p, [])]) w) = f w.

Variable STYLES_TABLE : string.
Variable bool_DataSource : list OgrLayer -> bool.

Local Abbreviation keeps := (respects (kept f)).

Lemma kept_refl (w : World) : kept f w w.
Proof. reflexivity. Qed.

Lemma kept_trans (a b c : World) : kept f a b -> kept f b c -> kept f a c.
Proof. unfold kept; congruence. Qed.

Ltac kept_side := first [exact kept_refl | exact kept_trans].

Lemma keeps_bind {A B} (m : M A) (k : A -> M B) :
  keeps m -> (forall a, keeps (k a)) -> keeps (bind m k).
Proof. apply respects_bind; kept_side. Qed.

Lemma keeps_with {A} (p : string) (u : Z) (body : option Handle -> M A) :
  (forall y, keeps (body y)) -> keeps (with_ (open_source p u) body).
Proof.
  apply respects_with_open;
    first [kept_side | exact f_event | exact f_handle].
Qed.

Lemma keeps_CreateDataSource (p : string) :
  written p -> keeps (CreateDataSource p).
Proof.
  intros Hp w; unfold kept, CreateDataSource, bind, external.
  destruct (fault w (Op_CreateDataSource p)); [reflexivity|].
  destruct (lookup p (stores w)).
  - destruct (use_exceptions w); reflexivity.
  - simpl; now rewrite f_event, f_handle, f_create.
Qed.

Lemma CreateDataSource_gives (p : string) (w : World) (ds : option Handle) :
  fst (CreateDataSource p w) = Ret ds ->
  forall hd, ds = Some hd -> h_loc hd = p.
Proof.
  intros H; destruct (CreateDataSource p w) as [r w'] eqn:E; simpl in H; subst r.
  now apply CreateDataSource_inv in E as [E _].
Qed.

Lemma keeps_CopyLayer (ds : option Handle) (layer : OgrLayer) (nm : string) :
  (forall hd, ds = Some hd -> written (h_loc hd)) ->
  keeps (CopyLayer ds layer nm).
Proof.
  intros Hds w; unfold kept, CopyLayer, deref.
  destruct ds as [hd|]; [|reflexivity].
  unfold bind, ret, external, modify.
  destruct (fault w (Op_CopyLayer nm)); [reflexivity|].
  simpl; rewrite f_event, f_update; [reflexivity|].
  now apply Hds.
Qed.

Lemma keeps_get_source_layers (src : option Handle) :
  keeps (get_source_layers STYLES_TABLE src).
Proof.
  apply respects_same; try kept_side.
  intros w; unfold get_source_layers, iter_source, bind.
  now destruct src.
Qed.

Lemma keeps_postgis_as_gpkg (conn dest : string) (names : option (list string)) :
  written (gpkg_path dest) ->
  keeps (postgis_as_gpkg STYLES_TABLE conn dest names).
Proof.
  intros Hp; unfold postgis_as_gpkg.
  apply keeps_bind;
    [|intros _; apply respects_ret; kept_side].
  apply keeps_with; intros src.
  apply (@respects_bind_with (kept f) kept_trans _ _
           (fun ds => forall hd, ds = Some hd -> h_loc hd = gpkg_path dest)).
  - now apply keeps_CreateDataSource.
  - intros w ds; apply CreateDataSource_gives.
  - intros ds Hds; apply keeps_bind.
    + destruct names as [[|n ns]|]; try apply keeps_get_source_layers.
      apply keeps_bind; [apply keeps_get_source_layers|].
      intros all; apply respects_ret; kept_side.
    + intros layers; apply respects_for_each; try kept_side.
      intros lyr; apply keeps_bind;
        [|intros _; apply respects_ret; kept_side].
      apply keeps_CopyLayer; intros hd E; now rewrite (Hds hd E).
Qed.

Lemma keeps_create_table (p : string) :
  written p -> keeps (create_table STYLES_TABLE p).
Proof.
  intros Hp w; unfold kept, create_table, external, bind.
  destruct (fault w (Op_create_table p)); [reflexivity|].
  destruct (lookup p (stores w)) as [ls|]; [|reflexivity].
  destruct (existsb _ ls); [reflexivity|].
  simpl; now apply f_update.
Qed.

Lemma keeps_add_style (p : string) (style : style_row) (b : bool) :
  written p -> keeps (add_style STYLES_TABLE p style b).
Proof.
  intros Hp w; destruct style as [[[n g] s] body].
  unfold kept, add_style, external, bind.
  destruct (fault w (Op_add_style n)); [reflexivity|].
  destruct (lookup p (stores w)); [|reflexivity].
  simpl; now apply f_update.
Qed.

Lemma keeps_select_layers (ds : option Handle) (all_layers : list CatalogLayer)
  (acc : list style_row * list string) :
  keeps (select_layers ds acc all_layers).
Proof.
  apply respects_same; try kept_side; intros w.
  destruct ds as [h|].
  - destruct (select_layers_run h all_layers acc w) as (r & E & _).
    now rewrite E.
  - destruct all_layers as [|layer rest]; [reflexivity|].
    destruct acc as [a b]; reflexivity.
Qed.

Lemma keeps_backup_steps (pkg conn : string) (ds : option Handle) :
  written pkg -> written (gpkg_path pkg) ->
  keeps (backup_steps STYLES_TABLE bool_DataSource pkg conn ds).
Proof.
  intros Hp Hg; unfold backup_steps.
  apply keeps_bind.
  - apply respects_same; try kept_side; intros w.
    now destruct ds.
  - intros [|]; [|apply respects_ret; kept_side].
    apply keeps_bind.
    + apply keeps_bind; [apply respects_external; kept_side|].
      intros _; apply respects_gets; kept_side.
    + intros all_layers; apply keeps_bind; [apply keeps_select_layers|].
      intros [layer_styles table_names].
      apply keeps_bind; [now apply keeps_postgis_as_gpkg|].
      intros _; apply keeps_bind; [now apply keeps_create_table|].
      intros _; apply respects_for_each; try kept_side.
      intros style; now apply keeps_add_style.
Qed.

Lemma keeps_backup_try (d pkg conn : string) :
  written pkg -> written (gpkg_path pkg) ->
  keeps (backup_try STYLES_TABLE bool_DataSource d pkg conn).
Proof.
  intros Hp Hg; unfold backup_try.
  apply keeps_bind; [apply respects_gets; kept_side|].
  intros isdir; apply keeps_bind.
  - destruct isdir; [apply respects_gets | apply respects_ret]; kept_side.
  - intros writable; apply keeps_bind.
    + destruct (negb isdir || negb writable)%bool;
        [apply respects_raise | apply respects_ret]; kept_side.
    + intros _; apply keeps_with; intros ds.
      now apply keeps_backup_steps.
Qed.

Lemma keeps_backup_protected (d pkg conn : string) :
  written pkg -> written (gpkg_path pkg) ->
  keeps (backup_protected STYLES_TABLE bool_DataSource d pkg conn).
Proof.
  intros Hp Hg; unfold backup_protected.
  apply respects_finally_return.
  apply respects_try_except; try kept_side.
  - apply keeps_bind; [now apply keeps_backup_try|].
    intros _; apply respects_ret; kept_side.
  - intros e; apply keeps_bind.
    + apply respects_modify; try kept_side; intros w; apply f_log.
    + intros _; apply respects_ret; kept_side.
Qed.

End Keeps.

Section BackupKeeps.

Variables STYLES_TABLE DOWNLOADS_DIR_PATH : string.
Variable bool_DataSource : list OgrLayer -> bool.

Local Abbreviation backup :=
  (backup_portal STYLES_TABLE DOWNLOADS_DIR_PATH bool_DataSource).

Lemma backup_given_protected (d : string) (w : World) :
  PyStr.truthy d = true ->
  backup (Some d) w
  = backup_protected STYLES_TABLE bool_DataSource d (archive_path d w)
      (live_connection w) w.
Proof.
  intros Hd; now rewrite backup_portal_unfold, resolve_given by exact Hd.
Qed.

(** A backup into a given destination creates and changes no
    directory, however it ends; and when it returns the destination,
    the destination is a writable directory. *)
Theorem backup_portal_keeps_directories (d : string) (w : World) :
  PyStr.truthy d = true ->
  dirs (snd (backup (Some d) w)) = dirs w
  /\ forall p w',
       backup (Some d) w = (Ret (Some p), w') ->
       p = d /\ lookup d (dirs w') = Some true.
Proof.
  intros Hd.
  assert (K : dirs (snd (backup (Some d) w)) = dirs w).
  { rewrite backup_given_protected by exact Hd.
    eapply (@keeps_backup_protected _ dirs (fun _ => True)); try exact I;
      intros; reflexivity. }
  split; [exact K|].
  intros p w' H; rewrite H in K; simpl in K.
  rewrite backup_given in H by exact Hd.
  destruct (lookup d (dirs w)) as [[|]|] eqn:E.
  - destruct (backup_try _ _ d _ _ w) as [[[] | e] w1]; [|discriminate].
    injection H as <- _; now rewrite K.
  - rewrite try_block_unwritable in H by (rewrite E; discriminate).
    discriminate.
  - rewrite try_block_unwritable in H by (rewrite E; discriminate).
    discriminate.
Qed.

(** A backup into a given destination writes to no store other than
    its archive, however it ends: in particular it leaves the live
    database as it was. *)
Theorem backup_portal_writes_only_archive (d : string) (w : World) (loc : string) :
  PyStr.truthy d = true ->
  loc <> archive_path d w ->
  store_at loc (snd (backup (Some d) w)) = store_at loc w.
Proof.
  intros Hd Hl.
  rewrite backup_given_protected by exact Hd.
  assert (Hn : archive_path d w <> loc) by (intros E; now elim Hl).
  eapply (@keeps_backup_protected _ (store_at loc) (fun p => p <> loc));
    try (intros; reflexivity).
  - intros p v w0 Hp; unfold store_at; simpl.
    now apply lookup_update_other.
  - intros p w0 Hp; unfold store_at; simpl.
    now apply lookup_app_other.
  - exact Hn.
  - now rewrite gpkg_path_kept by apply archive_path_ends.
Qed.

(** [postgis_as_gpkg] writes to no store other than its destination,
    however it ends: it does not modify the source it reads. *)
Theorem postgis_as_gpkg_writes_only_destination
  (conn dest : string) (names : option (list string)) (w : World) (loc : string) :
  loc <> gpkg_path dest ->
  store_at loc (snd (postgis_as_gpkg STYLES_TABLE conn dest names w))
  = store_at loc w.
Proof.
  intros Hl.
  assert (Hn : gpkg_path dest <> loc) by (intros E; now elim Hl).
  eapply (@keeps_postgis_as_gpkg _ (store_at loc) (fun p => p <> loc));
    try (intros; reflexivity).
  - intros p v w0 Hp; unfold store_at; simpl.
    now apply lookup_update_other.
  - intros p w0 Hp; unfold store_at; simpl.
    now apply lookup_app_other.
  - exact Hn.
Qed.

End BackupKeeps.

Lemma backup_portal_keeps_directories_witness :
  PyStr.truthy "/tmp/out" = true
  /\ dirs (snd (Sample.backup (Some "/tmp/out") Sample.scenario_A))
     = dirs Sample.scenario_A.
Proof.
  split; [reflexivity|].
  apply (@backup_portal_keeps_directories Sample.STYLES Sample.DOWNLOADS
           Sample.len_truth "/tmp/out" Sample.scenario_A).
  reflexivity.
Defined.

Lemma backup_portal_writes_only_archive_witness :
  PyStr.truthy "/tmp/out" = true
  /\ Sample.conn <> archive_path "/tmp/out" Sample.scenario_A
  /\ store_at Sample.conn (snd (Sample.backup (Some "/tmp/out") Sample.scenario_A))
     = store_at Sample.conn Sample.scenario_A.
Proof.
  assert (H : Sample.conn <> archive_path "/tmp/out" Sample.scenario_A)
    by (vm_compute; discriminate).
  split; [reflexivity|]; split; [exact H|].
  apply (@backup_portal_writes_only_archive Sample.STYLES Sample.DOWNLOADS
           Sample.len_truth "/tmp/out" Sample.scenario_A Sample.conn eq_refl H).
Defined.

Lemma postgis_as_gpkg_writes_only_destination_witness :
  Sample.conn <> gpkg_path "/tmp/out/a"
  /\ store_at Sample.conn
       (snd (postgis_as_gpkg Sample.STYLES Sample.conn "/tmp/out/a" None
               Sample.scenario_A))
     = store_at Sample.conn Sample.scenario_A.
Proof.
  assert (H : Sample.conn <> gpkg_path "/tmp/out/a")
    by (vm_compute; discriminate).
  split; [exact H|].
  apply (@postgis_as_gpkg_writes_only_destination Sample.STYLES Sample.conn
           "/tmp/out/a" None Sample.scenario_A Sample.conn H).
Defined.

(* ================================================================== *)
(** ** The table name of a registered layer *)

Lemma split_not_nil (sep : ascii) (s : string) : PyStr.split sep s <> [].
Proof.
  destruct s as [|c r]; simpl; [discriminate|].
  destruct (Ascii.eqb c sep); [discriminate|].
  destruct (PyStr.split sep r); discriminate.
Qed.

(** [(p + sep + t).split(sep) == p.split(sep) + t.split(sep)] *)
Lemma split_app (sep : ascii) (p t : string) :
  PyStr.split sep (p ++ String sep t)%string
  = PyStr.split sep p ++ PyStr.split sep t.
Proof.
  induction p as [|c r IH]; simpl.
  - now rewrite Ascii.eqb_refl.
  - destruct (Ascii.eqb c sep); [now rewrite IH|].
    rewrite IH.
    pose proof (split_not_nil sep r) as N.
    destruct (PyStr.split sep r) as [|q qs]; [now elim N | reflexivity].
Qed.

Lemma split_without (sep : ascii) (t : string) :
  ~ In sep (list_ascii_of_string t) -> PyStr.split sep t = [t].
Proof.
  induction t as [|c r IH]; simpl; intros H; [reflexivity|].
  destruct (Ascii.eqb c sep) eqn:E.
  - apply Ascii.eqb_eq in E; elim H; now left.
  - rewrite IH; [reflexivity | intros I; apply H; now right].
Qed.

Lemma split_pieces (sep : ascii) (s : string) :
  Forall (fun piece => ~ In sep (list_ascii_of_string piece)) (PyStr.split sep s).
Proof.
  induction s as [|c r IH]; simpl.
  - constructor; [intros [] | constructor].
  - destruct (Ascii.eqb c sep) eqn:E.
    + constructor; [intros [] | exact IH].
    + pose proof (split_not_nil sep r) as N.
      destruct (PyStr.split sep r) as [|q qs]; [now elim N|].
      inversion IH as [|? ? Hq Hqs]; subst.
      constructor; [|exact Hqs].
      simpl; intros [-> | I]; [|now apply Hq].
      now rewrite Ascii.eqb_refl in E.
Qed.

Lemma last_in (l : list string) (d : string) : l <> [] -> In (last l d) l.
Proof.
  induction l as [|a [|b r] IH]; intros N; [now elim N | now left |].
  right; apply IH; discriminate.
Qed.

Lemma last_app_right (l1 l2 : list string) (d : string) :
  l2 <> [] -> last (l1 ++ l2) d = last l2 d.
Proof.
  intros N; induction l1 as [|a r IH]; [reflexivity|].
  simpl app; rewrite <- IH.
  destruct (r ++ l2) eqn:E; [|reflexivity].
  apply app_eq_nil in E as [_ E]; now elim N.
Qed.

(** The table name taken from a registered layer's alternate never
    contains a colon, whatever the alternate is. *)
Theorem table_name_has_no_colon (layer : CatalogLayer) :
  ~ In ":"%char (list_ascii_of_string (table_name layer)).
Proof.
  unfold table_name, PyStr.pop.
  pose proof (split_pieces ":" (alternate layer)) as F.
  rewrite Forall_forall in F; apply F.
  apply last_in, split_not_nil.
Qed.

(** The table name is what follows the last colon of the alternate:
    everything up to it is dropped, so that layers registered under
    different workspaces with the same table have the same table
    name. *)
Theorem table_name_drops_workspace (layer : CatalogLayer) (prefix t : string) :
  ~ In ":"%char (list_ascii_of_string t) ->
  alternate layer = (prefix ++ String ":" t)%string ->
  table_name layer = t.
Proof.
  intros Ht Ha; unfold table_name, PyStr.pop.
  rewrite Ha, split_app, last_app_right by apply split_not_nil.
  now rewrite split_without.
Qed.

Lemma table_name_drops_workspace_witness :
  ~ In ":"%char (list_ascii_of_string "roads")
  /\ table_name (mkCatalogLayer "other:geonode:roads" None None) = "roads".
Proof.
  assert (H : ~ In ":"%char (list_ascii_of_string "roads")).
  { simpl; intros I; repeat (destruct I as [I | I]; [discriminate I|]).
    exact I. }
  split; [exact H|].
  apply (@table_name_drops_workspace
           (mkCatalogLayer "other:geonode:roads" None None) "other:geonode" "roads" H).
  reflexivity.
Defined.
